(** * pchain: chain commands and the service lifecycle

    A shallow embedding of
    - [vendor/github.com/tendermint/go-common/service.go] (module [Service]),
    - [vendor/github.com/ethereum/go-ethereum/cmd/geth/chaincmd.go]
      (modules [Census], [ImportCmd], [MemObserver] and [ExportCmd], over
      [Strconv], [Types] and [Common]),
    followed by the properties the specification states about them
    (modules [ServiceFacts], [MemObserverFacts], [ExportFacts],
    [ImportFacts] and [CensusFacts]). *)

From Stdlib Require Import ZArith String Ascii List Lia Bool.
From Stdlib Require Import Strings.Byte.
From stdpp Require Import base option list gmap strings.
Import ListNotations.

Local Open Scope Z_scope.

(** Go's [error] interface values are only ever compared with [nil] and
    printed here; an error is modelled by its message. *)
Definition error := string.

(* ===================================================================== *)
(** * service.go: BaseService                                             *)
(* ===================================================================== *)

Module Service.

(** [Quit chan struct{}]: the code only makes and closes the channel. *)
Inductive chan := ChanOpen | ChanClosed.

(** Hooks of the "subclass" that the base service dispatches to. *)
Inductive hook := HookOnStart | HookOnStop | HookOnReset.

Section Lifecycle.

(** State owned by the implementation ([bs.impl]).  The hooks act on it
    and do not call back into the base service. *)
Variable Impl : Type.

(** [impl.OnStart() error], [impl.OnStop()], [impl.OnReset() error].
    [OnReset] may panic ([BaseService.OnReset] does, through
    [PanicSanity]): [None] is the panic. *)
Variable OnStart : Impl -> Impl * option error.
Variable OnStop : Impl -> Impl.
Variable OnReset : Impl -> option (Impl * option error).

(** [started] and [stopped] are [uint32] words accessed atomically.  The
    caller must ensure that Start and Stop are not called concurrently
    (service.go, line 34), so every method runs to completion on the
    state.  [calls] records the hooks invoked so far, oldest first. *)
Record BaseService := mkBS {
  started : Z;
  stopped : Z;
  Quit : chan;
  impl : Impl;
  calls : list hook
}.

Definition NewBaseService (i : Impl) : BaseService :=
  {| started := 0; stopped := 0; Quit := ChanOpen; impl := i; calls := [] |}.

Definition set_started (v : Z) (bs : BaseService) : BaseService :=
  {| started := v; stopped := stopped bs; Quit := Quit bs;
     impl := impl bs; calls := calls bs |}.

Definition set_stopped (v : Z) (bs : BaseService) : BaseService :=
  {| started := started bs; stopped := v; Quit := Quit bs;
     impl := impl bs; calls := calls bs |}.

Definition set_Quit (c : chan) (bs : BaseService) : BaseService :=
  {| started := started bs; stopped := stopped bs; Quit := c;
     impl := impl bs; calls := calls bs |}.

Definition set_impl (i : Impl) (h : hook) (bs : BaseService) : BaseService :=
  {| started := started bs; stopped := stopped bs; Quit := Quit bs;
     impl := i; calls := calls bs ++ [h] |}.

(** [atomic.CompareAndSwapUint32(addr, old, new)]: the new content of the
    word and whether the swap happened. *)
Definition CompareAndSwapUint32 (cur old new : Z) : Z * bool :=
  if cur =? old then (new, true) else (cur, false).

(** [func (bs *BaseService) Start() (bool, error)] *)
Definition Start (bs : BaseService) : BaseService * (bool * option error) :=
  let '(st, swapped) := CompareAndSwapUint32 (started bs) 0 1 in
  let bs := set_started st bs in
  if swapped then
    let bs := if stopped bs =? 1 then set_stopped 0 bs else bs in
    let bs := set_Quit ChanOpen bs in
    let '(i, err) := OnStart (impl bs) in
    let bs := set_impl i HookOnStart bs in
    match err with
    | Some e =>
        (* revert flag *)
        (set_started 0 bs, (false, Some e))
    | None => (bs, (true, None))
    end
  else (bs, (false, None)).

(** [func (bs *BaseService) Stop() bool].  [close(bs.Quit)] is the
    assignment of [ChanClosed]: Go panics when the channel is closed
    already, which cannot happen in a state a client can bring a new
    service to, where [Quit] is open whenever [stopped] is 0. *)
Definition Stop (bs : BaseService) : BaseService * bool :=
  let '(sp, swapped) := CompareAndSwapUint32 (stopped bs) 0 1 in
  let bs := set_stopped sp bs in
  if swapped then
    let bs := set_impl (OnStop (impl bs)) HookOnStop bs in
    let bs := set_Quit ChanClosed bs in
    let bs := if started bs =? 1 then set_started 0 bs else bs in
    (bs, true)
  else (bs, false).

(** [func (bs *BaseService) Reset() (bool, error)]; [None] when [OnReset]
    panics. *)
Definition Reset (bs : BaseService)
  : option (BaseService * (bool * option error)) :=
  let '(sp, swapped) := CompareAndSwapUint32 (stopped bs) 1 0 in
  let bs := set_stopped sp bs in
  if swapped then
    let '(st, _) := CompareAndSwapUint32 (started bs) 1 0 in
    let bs := set_started st bs in
    let bs := set_Quit ChanOpen bs in
    match OnReset (impl bs) with
    | Some (i, err) => Some (set_impl i HookOnReset bs, (true, err))
    | None => None
    end
  else Some (bs, (false, None)).

(** [func (bs *BaseService) IsRunning() bool] *)
Definition IsRunning (bs : BaseService) : bool :=
  (started bs =? 1) && (stopped bs =? 0).

(** Method calls a client can make, and what each returned. *)
Inductive call := CallStart | CallStop | CallReset | CallIsRunning.

Inductive ret :=
| RetStart (ok : bool) (err : option error)
| RetStop (ok : bool)
| RetReset (ok : bool) (err : option error)
| RetIsRunning (b : bool).

Definition exec (c : call) (bs : BaseService) : option (BaseService * ret) :=
  match c with
  | CallStart => let '(bs', (ok, err)) := Start bs in Some (bs', RetStart ok err)
  | CallStop => let '(bs', ok) := Stop bs in Some (bs', RetStop ok)
  | CallReset =>
      match Reset bs with
      | Some (bs', (ok, err)) => Some (bs', RetReset ok err)
      | None => None
      end
  | CallIsRunning => Some (bs, RetIsRunning (IsRunning bs))
  end.

(** A client session: the calls in order, with their results. *)
Fixpoint run (cs : list call) (bs : BaseService)
  : option (BaseService * list ret) :=
  match cs with
  | [] => Some (bs, [])
  | c :: cs' =>
      match exec c bs with
      | Some (bs', r) =>
          match run cs' bs' with
          | Some (bs'', rs) => Some (bs'', r :: rs)
          | None => None
          end
      | None => None
      end
  end.

(** The flags only ever hold 0 or 1. *)
Definition wf (bs : BaseService) : Prop :=
  (started bs = 0 \/ started bs = 1) /\ (stopped bs = 0 \/ stopped bs = 1).

(** How often [OnStart] has been invoked. *)
Definition onstart_count (bs : BaseService) : nat :=
  List.length (List.filter
    (fun h => match h with HookOnStart => true | _ => false end) (calls bs)).

Definition is_stop (c : call) : bool :=
  match c with CallStop => true | _ => false end.

(** The result of a [Start] that found the service already started. *)
Definition start_refused (r : ret) : Prop :=
  match r with
  | RetStart ok err => ok = false /\ err = None
  | _ => True
  end.

End Lifecycle.

Arguments started {Impl} _.
Arguments stopped {Impl} _.
Arguments Quit {Impl} _.
Arguments impl {Impl} _.
Arguments calls {Impl} _.
Arguments mkBS {Impl} _ _ _ _ _.
Arguments NewBaseService {Impl} _.
Arguments IsRunning {Impl} _.
Arguments wf {Impl} _.
Arguments onstart_count {Impl} _.
Arguments Start {Impl} OnStart bs.
Arguments Stop {Impl} OnStop bs.
Arguments Reset {Impl} OnReset bs.
Arguments exec {Impl} OnStart OnStop OnReset c bs.
Arguments run {Impl} OnStart OnStop OnReset cs bs.
Arguments set_started {Impl} v bs.
Arguments set_stopped {Impl} v bs.
Arguments set_Quit {Impl} c bs.
Arguments set_impl {Impl} i h bs.

End Service.

(* ===================================================================== *)
(** * Go values shared by the commands of chaincmd.go                     *)
(* ===================================================================== *)

(** [[]byte]. *)
Abbreviation bytes := (list byte).

#[global] Instance byte_eq_dec : EqDecision byte := Byte.byte_eq_dec.

#[global] Program Instance byte_countable : Countable byte :=
  inj_countable Byte.to_N Byte.of_N _.
Next Obligation. intros b. apply Byte.of_to_N. Qed.

(** Go's [int] on the 64-bit targets the node is built for: additions wrap
    from [2^63 - 1] to [-2^63]. *)
Definition wrapInt (z : Z) : Z := (z + 2 ^ 63) mod 2 ^ 64 - 2 ^ 63.

Definition int_add (a b : Z) : Z := wrapInt (a + b).

(** [len(x)] of a slice or string, as an [int]. *)
Definition len {A} (l : list A) : Z := Z.of_nat (List.length l).

(** [ctx.Args()] is a [[]string]; [Args.Get(n)] returns the empty string
    when [n] is out of range, and [First()] is [Get(0)]. *)
Definition Args := list string.

Definition Get (a : Args) (n : nat) : string := List.nth n a EmptyString.

Definition First (a : Args) : string := Get a 0.

(** [err != nil] *)
Definition notNil {A} (err : option A) : bool :=
  match err with
  | Some _ => true
  | None => false
  end.

(** How a command ends: it returns ([nil] or an error), [utils.Fatalf]
    prints the message and exits the process, or the goroutine panics. *)
Inductive outcome :=
| Returned (err : option error)
| Fatal (msg : string)
| Panicked (msg : string).

(** [types.Block], the part the commands read: [NumberU64()], [Root()] (the
    same hash as [Header().Root]) and [Size()]. *)
Module Types.

Record Block := mkBlock {
  Number : Z;
  Root : bytes;
  Size : Z
}.

#[global] Instance Block_eq_dec : EqDecision Block.
Proof. solve_decision. Defined.

End Types.

(* ===================================================================== *)
(** * strconv: the two parsers the commands call, at base 10 and 64 bits  *)
(* ===================================================================== *)

Module Strconv.

Inductive NumError := ErrSyntax | ErrRange.

Definition maxUint64 : Z := 2 ^ 64 - 1.

(** ['0' <= c && c <= '9'] gives [d = c - '0']; every other byte is a
    syntax error at base 10 (letters decode to a digit [>= 10]). *)
Definition digit (c : ascii) : option Z :=
  let n := Z.of_N (N_of_ascii c) in
  if (48 <=? n) && (n <=? 57) then Some (n - 48) else None.

(** The loop of [ParseUint]: [n] is the value read so far, a [uint64].
    Below the cutoff [n * 10] does not overflow; [n + d] may, and wraps. *)
Fixpoint parseDigits (s : string) (n : Z) : Z * option NumError :=
  match s with
  | EmptyString => (n, None)
  | String c rest =>
      match digit c with
      | None => (0, Some ErrSyntax)
      | Some d =>
          let cutoff := maxUint64 / 10 + 1 in
          if n >=? cutoff then (maxUint64, Some ErrRange)
          else
            let n := n * 10 in
            let n1 := (n + d) mod 2 ^ 64 in
            if (n1 <? n) || (n1 >? maxUint64) then (maxUint64, Some ErrRange)
            else parseDigits rest n1
      end
  end.

(** [strconv.ParseUint(s, 10, 64)] *)
Definition ParseUint (s : string) : Z * option NumError :=
  match s with
  | EmptyString => (0, Some ErrSyntax)
  | _ => parseDigits s 0
  end.

(** [strconv.ParseInt(s, 10, 64)] *)
Definition ParseInt (s : string) : Z * option NumError :=
  match s with
  | EmptyString => (0, Some ErrSyntax)
  | String c rest =>
      let '(neg, s') :=
        if Ascii.eqb c "+" then (false, rest)
        else if Ascii.eqb c "-" then (true, rest)
        else (false, s) in
      let '(un, err) := ParseUint s' in
      match err with
      | Some ErrSyntax => (0, Some ErrSyntax)
      | _ =>
          let cutoff := 2 ^ 63 in
          if negb neg && (un >=? cutoff) then (cutoff - 1, Some ErrRange)
          else if neg && (un >? cutoff) then (- cutoff, Some ErrRange)
          else (if neg then - un else un, None)
      end
  end.

End Strconv.

(* ===================================================================== *)
(** * package common: hashes and their hexadecimal spelling               *)
(* ===================================================================== *)

Module Common.

(** Package common is not among the sources here.  What is needed of it
    is the type of hashes and the reading of the hexadecimal literal that
    defines [emptyRoot]; the spelling of hashes in the dump is a parameter
    of the census, and [hashHex] and [hexEncode] are the spelling the
    examples use. *)

(** [common.Hash] is [[32]byte]. *)
Abbreviation Hash := bytes.

Definition HashLength : nat := 32.

(** [common.Hash{}] *)
Definition zeroHash : Hash := List.repeat x00 HashLength.

Definition hexdigit (n : N) : ascii :=
  if (n <? 10)%N then ascii_of_N (48 + n) else ascii_of_N (87 + n).

(** Go's [hex.EncodeToString]: two lower-case digits per byte. *)
Fixpoint hexEncode (b : bytes) : string :=
  match b with
  | [] => EmptyString
  | x :: rest =>
      String (hexdigit (Byte.to_N x / 16))
        (String (hexdigit (Byte.to_N x mod 16)) (hexEncode rest))
  end.

(** The digits of a hash after ["0x"]. *)
Definition hashHex (h : Hash) : string := String.append "0x" (hexEncode h).

Definition unhex (c : ascii) : option N :=
  let n := N_of_ascii c in
  if (48 <=? n)%N && (n <=? 57)%N then Some (n - 48)%N
  else if (97 <=? n)%N && (n <=? 102)%N then Some (n - 87)%N
  else if (65 <=? n)%N && (n <=? 70)%N then Some (n - 55)%N
  else None.

(** [common.Hex2Bytes]: [hex.DecodeString] with the error dropped, which
    keeps the bytes decoded before the first bad digit. *)
Fixpoint Hex2Bytes (s : string) : bytes :=
  match s with
  | String a (String b rest) =>
      match unhex a, unhex b with
      | Some hi, Some lo =>
          match Byte.of_N (hi * 16 + lo) with
          | Some x => x :: Hex2Bytes rest
          | None => []
          end
      | _, _ => []
      end
  | _ => []
  end.

(** [common.FromHex]: an optional ["0x"] or ["0X"], an odd number of
    digits padded with a leading zero. *)
Definition FromHex (s : string) : bytes :=
  let s :=
    match s with
    | String "0" (String "x" rest) => rest
    | String "0" (String "X" rest) => rest
    | _ => s
    end in
  let s := if Nat.odd (String.length s) then String "0" s else s in
  Hex2Bytes s.

(** [common.BytesToHash]: the last 32 bytes, right-aligned in a zero hash. *)
Definition BytesToHash (b : bytes) : Hash :=
  let b := List.skipn (List.length b - HashLength) b in
  List.repeat x00 (HashLength - List.length b) ++ b.

Definition HexToHash (s : string) : Hash := BytesToHash (FromHex s).

End Common.

(* ===================================================================== *)
(** * chaincmd.go: countBlockState and countTrie                          *)
(* ===================================================================== *)

Module Census.

Import Common.

(** A computation that may panic (a method called on a nil interface or a
    nil pointer dereferenced). *)
Inductive result (A : Type) :=
| Ok (a : A)
| Panic (msg : string).

Arguments Ok {A} _.
Arguments Panic {A} _.

Definition bind {A B} (m : result A) (k : A -> result B) : result B :=
  match m with
  | Ok a => k a
  | Panic msg => Panic msg
  end.

Notation "'let*' x ':=' m 'in' k" := (bind m (fun x => k))
  (at level 10, x name, m at level 100, k at level 200).

(** [state.Account], the five roots the census reads. *)
Record Account := mkAccount {
  Root : Hash;
  TX1Root : Hash;
  TX3Root : Hash;
  ProxiedRoot : Hash;
  RewardRoot : Hash
}.

(** What the node iterator stands on after [it.Next(true)] returned true:
    [it.Leaf()] is false and [it.Hash()] is the node's hash, or [it.Leaf()]
    is true with [it.LeafKey()] and [it.LeafBlob()]. *)
Inductive item :=
| Node (hash : Hash)
| Leaf (key blob : bytes).

(** [state.Trie], as far as [countTrie] uses it: the positions
    [t.NodeIterator(nil)] goes through until [Next] returns false, and
    [t.GetKey]. *)
Record Trie := mkTrie {
  NodeIterator : list item;
  GetKey : bytes -> bytes
}.

(** [state.Database]: the six ways to open a trie.  Each returns
    [(Trie, error)]; the code drops the error, and on an error the trie is
    the nil interface, here [None]. *)
Record Database := mkDatabase {
  OpenTrie : Hash -> option Trie;
  OpenStorageTrie : Hash -> Hash -> option Trie;
  OpenTX1Trie : Hash -> Hash -> option Trie;
  OpenTX3Trie : Hash -> Hash -> option Trie;
  OpenProxiedTrie : Hash -> Hash -> option Trie;
  OpenRewardTrie : Hash -> Hash -> option Trie
}.

(** The node and its surroundings, as [countBlockState] reaches them. *)
Record Env := mkEnv {
  (** [chainDb], the key/value store behind [db.Get] *)
  chainDb : gmap bytes bytes;
  (** [rawdb.ReadCanonicalHash(chainDb, height)] *)
  ReadCanonicalHash : Z -> Hash;
  (** [rawdb.ReadBlock(chainDb, hash, height)], [None] for the nil block *)
  ReadBlock : Hash -> Z -> option Types.Block;
  (** [state.NewDatabase(chainDb)] *)
  stateDatabase : Database;
  (** what [rlp.DecodeBytes(blob, &data)] leaves in [data]; its error is
      dropped *)
  DecodeAccount : bytes -> Account;
  (** [Hash.String()] and [common.Bytes2Hex(b)] of package common, which
      is not among the sources here: how a hash and a byte string are
      spelt in hexadecimal *)
  HashString : Hash -> string;
  Bytes2Hex : bytes -> string;
  (** the error of [os.OpenFile("blockstate_nodedump", ...)], if any *)
  OpenFileErr : option error
}.

Record nodeData := mkNodeData {
  key : string;
  value : string
}.

Record CountSize := mkCountSize {
  Totalnodevaluesize : Z;
  Totalnode : Z;
  Data : list nodeData
}.

Inductive trieKind := KStorage | KTX1 | KTX3 | KProxied | KReward.

(** What the census did to its collaborators, in order. *)
Inductive event :=
| EvGet (key : bytes)
| EvDecode (blob : bytes)
| EvOpen (kind : trieKind) (root : Hash).

(** [count *CountSize] together with the trace of events. *)
Record St := mkSt {
  count : CountSize;
  trace : list event
}.

Definition emit (e : event) (s : St) : St :=
  {| count := count s; trace := trace s ++ [e] |}.

Definition emptyRoot : Hash := Eval vm_compute in
  HexToHash "56e81f171bcc55a6ff8345e692c0f86e5b48e01b996cadc001622fb5e363b421".

(** [node, _ := db.Get(key)]: nil when the key is absent. *)
Definition dbGet (db : gmap bytes bytes) (k : bytes) : bytes :=
  default [] (db !! k).

Definition processLeafTrie := bytes -> Account -> St -> result St.

(** The body of the loop of [countTrie], at one position of the iterator. *)
Definition countItem (E : Env) (t : Trie) (processLeaf : option processLeafTrie)
    (it : item) (s : St) : result St :=
  match it with
  | Node h =>
      (* non leaf node -> count += value *)
      let node := dbGet (chainDb E) h in
      let c := count s in
      Ok (emit (EvGet h)
            {| count :=
                 {| Totalnodevaluesize := int_add (Totalnodevaluesize c) (len node);
                    Totalnode := int_add (Totalnode c) 1;
                    Data := Data c ++ [mkNodeData (HashString E h) (Bytes2Hex E node)] |};
               trace := trace s |})
  | Leaf k blob =>
      (* Process the Account -> Inner Trie *)
      match processLeaf with
      | Some f =>
          let addr := GetKey t k in
          if len addr =? 20 then
            let data := DecodeAccount E blob in
            f addr data (emit (EvDecode blob) s)
          else Ok s
      | None => Ok s
      end
  end.

(** [for it := t.NodeIterator(nil); it.Next(true); { ... }] *)
Fixpoint countItems (E : Env) (t : Trie) (processLeaf : option processLeafTrie)
    (its : list item) (s : St) : result St :=
  match its with
  | [] => Ok s
  | it :: rest =>
      let* s' := countItem E t processLeaf it s in
      countItems E t processLeaf rest s'
  end.

(** [func countTrie(db, t, count, processLeaf)]; [t.NodeIterator] on the
    nil interface panics. *)
Definition countTrie (E : Env) (t : option Trie) (s : St)
    (processLeaf : option processLeafTrie) : result St :=
  match t with
  | None => Panic "invalid memory address or nil pointer dereference"
  | Some t => countItems E t processLeaf (NodeIterator t) s
  end.

(** One of the five blocks of the closure passed by [countBlockState]:
    [if root != emptyRoot { trie, _ := open(common.Hash{}, root);
    countTrie(chainDb, trie, &count, nil) }]. *)
Definition countSub (E : Env) (open : Hash -> Hash -> option Trie)
    (kind : trieKind) (root : Hash) (s : St) : result St :=
  if decide (root <> emptyRoot) then
    let trie := open zeroHash root in
    countTrie E trie (emit (EvOpen kind root) s) None
  else Ok s.

(** The closure [func(addr common.Address, account state.Account)]. *)
Definition processAccount (E : Env) : processLeafTrie :=
  fun addr account s =>
    let db := stateDatabase E in
    let* s := countSub E (OpenStorageTrie db) KStorage (Root account) s in
    let* s := countSub E (OpenTX1Trie db) KTX1 (TX1Root account) s in
    let* s := countSub E (OpenTX3Trie db) KTX3 (TX3Root account) s in
    let* s := countSub E (OpenProxiedTrie db) KProxied (ProxiedRoot account) s in
    countSub E (OpenRewardTrie db) KReward (RewardRoot account) s.

(** Modelled from the spec: [state.New(root, db)], which is not among the
    sources here.  It yields a state when the account trie at [root] can be
    opened and [(nil, err)] when the block's state root is absent from the
    store; [statedb.Database()] is then the database it was given. *)
Definition stateNew (root : Hash) (db : Database) : option Database :=
  match OpenTrie db root with
  | Some _ => Some db
  | None => None
  end.

(** [fh.WriteString(data.key + " " + data.value + "\n")] for each entry. *)
Fixpoint dumpLines (d : list nodeData) : string :=
  match d with
  | [] => EmptyString
  | x :: rest =>
      String.append (key x)
        (String.append " "
           (String.append (value x) (String "010" (dumpLines rest))))
  end.

(** The line [countBlockState] prints at the end. *)
Record Summary := mkSummary {
  sumHeight : Z;
  sumBlockSize : Z;
  sumNodes : Z;
  sumBytes : Z
}.

(** The end of a run: how it ended, the content of the file
    [blockstate_nodedump] ([None] while it does not exist), the summary
    line if it was printed, and the final accumulator if it was reached. *)
Record Run := mkRun {
  ended : outcome;
  dumpFile : option string;
  printed : option Summary;
  final : option St
}.

Definition nilDeref : string :=
  "invalid memory address or nil pointer dereference".

(** [func countBlockState(ctx *cli.Context) error].  [makeConfigNode],
    [utils.RegisterEthService] and [utils.MakeChainDatabase] set the node
    up and are taken to succeed. *)
Definition countBlockState (E : Env) (args : Args) (file0 : option string)
    : Run :=
  if len args <? 1 then
    mkRun (Fatal "This command requires an argument.") file0 None None
  else
    let chainName := Get args 1 in
    let chainName := if String.eqb chainName "" then "pchain"%string else chainName in
    let height := fst (Strconv.ParseUint (First args)) in
    let blockhash := ReadCanonicalHash E height in
    match ReadBlock E blockhash height with
    | None =>
        (* block.Size() on the nil block *)
        mkRun (Panicked nilDeref) file0 None None
    | Some block =>
        let bsize := Types.Size block in
        let root := Types.Root block in
        match stateNew (Types.Root block) (stateDatabase E) with
        | None =>
            (* statedb.Database() on the nil state *)
            mkRun (Panicked nilDeref) file0 None None
        | Some db =>
            let accountTrie := OpenTrie db root in
            let count := {| count := mkCountSize 0 0 []; trace := [] |} in
            match countTrie E accountTrie count (Some (processAccount E)) with
            | Panic msg => mkRun (Panicked msg) file0 None None
            | Ok s =>
                match OpenFileErr E with
                | Some err => mkRun (Returned (Some err)) file0 None (Some s)
                | None =>
                    mkRun (Returned None)
                      (Some (dumpLines (Data (Census.count s))))
                      (Some (mkSummary height bsize
                               (Totalnode (Census.count s))
                               (Totalnodevaluesize (Census.count s))))
                      (Some s)
                end
            end
        end
    end.

End Census.

(* ===================================================================== *)
(** * chaincmd.go: importChain                                            *)
(* ===================================================================== *)

Module ImportCmd.

(** One record of an import file: a block that decodes, or bytes that do
    not. *)
Inductive record :=
| RecBlock (b : Types.Block)
| RecGarbage (raw : bytes).

(** The chain held by the store: the blocks inserted so far, oldest
    first. *)
Abbreviation Chain := (list Types.Block).

Record Env := mkEnv {
  (** the files on disk, by path *)
  files : gmap string (list record);
  (** the error of inserting a block on top of a chain, if any *)
  InsertBlock : Chain -> Types.Block -> option error;
  (** [db.Stat(property)], before ([false]) and after ([true]) the
      compaction: its error, if any *)
  StatErr : bool -> string -> option error;
  (** [ctx.GlobalIsSet(utils.NoCompactionFlag.Name)] *)
  NoCompaction : bool;
  (** the error of [db.Compact(nil, nil)], if any *)
  CompactErr : option error
}.

(** [log.Error("Import error", ...)]: the file, when it is logged, and the
    error. *)
Record logEntry := mkLog {
  logFile : option string;
  logErr : error
}.

(** Modelled from the spec: the loop of [utils.ImportChain], which is not
    among the sources here: "decode the file as a sequence of concatenated
    block records; insert each into the store in order; any decode or
    insertion error aborts" and "blocks already inserted remain". *)
Fixpoint importRecords (E : Env) (recs : list record) (chain : Chain)
    : Chain * option error :=
  match recs with
  | [] => (chain, None)
  | RecGarbage _ :: _ => (chain, Some "invalid block: decode error"%string)
  | RecBlock b :: rest =>
      match InsertBlock E chain b with
      | Some e => (chain, Some e)
      | None => importRecords E rest (chain ++ [b])
      end
  end.

(** Modelled from the spec: [utils.ImportChain(chain, fn)], which is not
    among the sources here: a file that cannot be opened is an error, an
    opened one is imported record by record. *)
Definition ImportChain (E : Env) (chain : Chain) (fn : string)
    : Chain * option error :=
  match files E !! fn with
  | None => (chain, Some "open: no such file or directory"%string)
  | Some recs => importRecords E recs chain
  end.

(** [for i, arg := range ctx.Args() { if i == 0 { continue }; if err :=
    utils.ImportChain(chain, arg); err != nil { log.Error(...) } }],
    from index [i] on. *)
Fixpoint importArgs (E : Env) (i : nat) (args : list string) (chain : Chain)
    (log : list logEntry) : Chain * list logEntry :=
  match args with
  | [] => (chain, log)
  | arg :: rest =>
      if Nat.eqb i 0 then
        (* skip the chain name *)
        importArgs E (S i) rest chain log
      else
        let '(chain', err) := ImportChain E chain arg in
        let log' :=
          match err with
          | Some e => log ++ [mkLog (Some arg) e]
          | None => log
          end in
        importArgs E (S i) rest chain' log'
  end.

(** What follows the import: the statistics, and the compaction unless it
    is switched off.  The lines printed are left out. *)
Definition afterImport (E : Env) : outcome :=
  match StatErr E false "leveldb.stats" with
  | Some e => Fatal (String.append "Failed to read database stats: " e)
  | None =>
  match StatErr E false "leveldb.iostats" with
  | Some e => Fatal (String.append "Failed to read database iostats: " e)
  | None =>
  if NoCompaction E then Returned None
  else
  match CompactErr E with
  | Some e => Fatal (String.append "Compaction failed: " e)
  | None =>
  match StatErr E true "leveldb.stats" with
  | Some e => Fatal (String.append "Failed to read database stats: " e)
  | None =>
  match StatErr E true "leveldb.iostats" with
  | Some e => Fatal (String.append "Failed to read database iostats: " e)
  | None => Returned None
  end end end end end.

Record Run := mkRun {
  ended : outcome;
  chain : Chain;
  logged : list logEntry
}.

(** [func importChain(ctx *cli.Context) error], the main goroutine.
    [makeConfigNode] and [utils.MakeChain] are taken to succeed; the
    memory observer it starts is [MemObserver] below. *)
Definition importChain (E : Env) (args : Args) (chain0 : Chain) : Run :=
  if len args <? 1 then
    mkRun (Fatal "This command requires an argument.") chain0 []
  else
    let chainName := First args in
    if String.eqb chainName "" then
      mkRun (Fatal "This command requires chain name specified.") chain0 []
    else
      let '(chain1, log) :=
        if len args =? 2 then
          let '(chain', err) := ImportChain E chain0 (Get args 1) in
          match err with
          | Some e => (chain', [mkLog None e])
          | None => (chain', [])
          end
        else importArgs E 0 args chain0 [] in
      mkRun (afterImport E) chain1 log.

End ImportCmd.

(* ===================================================================== *)
(** * chaincmd.go: the memory observer started by importChain             *)
(* ===================================================================== *)

Module MemObserver.

(** [runtime.MemStats], the two [uint64] fields the observer reads. *)
Record MemStats := mkMemStats {
  Alloc : Z;
  Sys : Z
}.

(** [var peakMemAlloc, peakMemSys uint64] *)
Record Peaks := mkPeaks {
  peakMemAlloc : Z;
  peakMemSys : Z
}.

(** The zero values the two variables are declared with. *)
Definition init : Peaks := mkPeaks 0 0.

(** One turn of the loop of the goroutine, with [stats] what
    [runtime.ReadMemStats] returned: [if atomic.LoadUint64(&peak) <
    stats.X { atomic.StoreUint64(&peak, stats.X) }] for both peaks.  The
    goroutine is the only writer of the two words. *)
Definition sample (p : Peaks) (stats : MemStats) : Peaks :=
  let a := if peakMemAlloc p <? Alloc stats then Alloc stats else peakMemAlloc p in
  let s := if peakMemSys p <? Sys stats then Sys stats else peakMemSys p in
  mkPeaks a s.

(** The loop never ends; after the turns that read [samples], in order: *)
Definition observe (samples : list MemStats) (p : Peaks) : Peaks :=
  List.fold_left sample samples p.

End MemObserver.

(* ===================================================================== *)
(** * chaincmd.go: exportChain                                            *)
(* ===================================================================== *)

Module ExportCmd.

Abbreviation Chain := (list Types.Block).

Record Env := mkEnv {
  (** the canonical chain of the store, by height *)
  canonical : Chain;
  (** the error of opening a path for writing, if any *)
  OpenErr : string -> option error
}.

(** The export files on disk, and the paths opened so far, oldest first. *)
Record World := mkWorld {
  fs : gmap string Chain;
  opened : list string
}.

(** The conversion [uint64(x)] of an [int64]. *)
Definition uint64 (x : Z) : Z := x mod 2 ^ 64.

(** Modelled from the spec: [utils.ExportChain(chain, fn)], which is not
    among the sources here: "export the entire canonical chain to
    filePath, creating it if absent". *)
Definition ExportChain (E : Env) (fn : string) (w : World)
    : World * option error :=
  let w := mkWorld (fs w) (opened w ++ [fn]) in
  match OpenErr E fn with
  | Some e => (w, Some e)
  | None => (mkWorld (<[fn := canonical E]> (fs w)) (opened w), None)
  end.

Definition inRange (first last : Z) (b : Types.Block) : bool :=
  (first <=? Types.Number b) && (Types.Number b <=? last).

(** Modelled from the spec: [utils.ExportAppendChain(chain, fn, first,
    last)], which is not among the sources here: "export only blocks in
    that height range, appending to filePath if it already exists". *)
Definition ExportAppendChain (E : Env) (fn : string) (first last : Z)
    (w : World) : World * option error :=
  let w := mkWorld (fs w) (opened w ++ [fn]) in
  match OpenErr E fn with
  | Some e => (w, Some e)
  | None =>
      let old := default [] (fs w !! fn) in
      let new := List.filter (inRange first last) (canonical E) in
      (mkWorld (<[fn := old ++ new]> (fs w)) (opened w), None)
  end.

Record Run := mkRun {
  ended : outcome;
  world : World
}.

(** [func exportChain(ctx *cli.Context) error].  [makeConfigNode] and
    [utils.MakeChain] are taken to succeed. *)
Definition exportChain (E : Env) (args : Args) (w : World) : Run :=
  if len args <? 1 then
    mkRun (Fatal "This command requires an argument.") w
  else
    let chainName := First args in
    if String.eqb chainName "" then
      mkRun (Fatal "This command requires chain name specified.") w
    else
      let fp := Get args 1 in
      let finish (r : World * option error) : Run :=
        match snd r with
        | Some e => mkRun (Fatal (String.append "Export error: " e)) (fst r)
        | None => mkRun (Returned None) (fst r)
        end in
      if len args <? 4 then
        finish (ExportChain E fp w)
      else
        (* This can be improved to allow for numbers larger than
           9223372036854775807 *)
        let '(first, ferr) := Strconv.ParseInt (Get args 2) in
        let '(last, lerr) := Strconv.ParseInt (Get args 3) in
        if notNil ferr || notNil lerr then
          mkRun (Fatal "Export error in parsing parameters: block number not an integer") w
        else if (first <? 0) || (last <? 0) then
          mkRun (Fatal "Export error: block number must be greater than 0") w
        else
          finish (ExportAppendChain E fp (uint64 first) (uint64 last) w).

End ExportCmd.

(* ===================================================================== *)
(** * chaincmd.go: dump and hashish                                       *)
(* ===================================================================== *)

Module DumpCmd.

(** [strconv.Atoi(s)]: on the 64-bit targets the node is built for, [int]
    is [int64] and [Atoi] accepts and returns what [ParseInt(s, 10, 64)]
    does. *)
Definition Atoi (s : string) : Z * option Strconv.NumError :=
  Strconv.ParseInt s.

(** [func hashish(x string) bool]: true for strings that look like
    hashes. *)
Definition hashish (x : string) : bool := notNil (snd (Atoi x)).

(** The conversion [uint64(num)] of an [int]. *)
Definition uint64 (x : Z) : Z := x mod 2 ^ 64.

(** What [state.New(root, db)] followed by [state.Dump()] gives for a
    state root: the error of [state.New], or the dump. *)
Inductive stateDump :=
| NoState (err : error)
| Dump (json : string).

Record Env := mkEnv {
  (** [chain.GetBlockByHash(hash)], [None] for the nil block *)
  GetBlockByHash : Common.Hash -> option Types.Block;
  (** [chain.GetBlockByNumber(number)], [None] for the nil block *)
  GetBlockByNumber : Z -> option Types.Block;
  (** the state at a root *)
  StateAt : Common.Hash -> stateDump
}.

(** The block an argument names: by hash when it looks like one, by
    number otherwise. *)
Definition blockOf (E : Env) (arg : string) : option Types.Block :=
  if hashish arg then GetBlockByHash E (Common.HexToHash arg)
  else
    let num := fst (Atoi arg) in
    GetBlockByNumber E (uint64 num).

(** The loop [for _, arg := range ctx.Args()], with the lines printed so
    far; it ends the process at the first argument it cannot dump. *)
Fixpoint dumpArgs (E : Env) (args : list string) (out : list string)
    : outcome * list string :=
  match args with
  | [] => (Returned None, out)
  | arg :: rest =>
      match blockOf E arg with
      | None => (Fatal "block not found", out ++ ["{}"%string])
      | Some block =>
          match StateAt E (Types.Root block) with
          | NoState err =>
              (Fatal (String.append "could not create new state: " err), out)
          | Dump json => dumpArgs E rest (out ++ [json])
          end
      end
  end.

(** How the command ended, the lines it printed, and whether it reached
    [chainDb.Close()]. *)
Record Run := mkRun {
  ended : outcome;
  out : list string;
  closed : bool
}.

(** [func dump(ctx *cli.Context) error].  [makeFullNode] and
    [utils.MakeChain] are taken to succeed. *)
Definition dump (E : Env) (args : Args) : Run :=
  let '(o, lines) := dumpArgs E args [] in
  match o with
  | Returned _ => mkRun (Returned None) lines true
  | _ => mkRun o lines false
  end.

End DumpCmd.

(* ===================================================================== *)
(** * chaincmd.go: initGenesis                                            *)
(* ===================================================================== *)

Module GenesisCmd.

(** The result of a call that returns a value and an [error]. *)
Inductive fallible (A : Type) :=
| Good (a : A)
| Bad (err : error).

Arguments Good {A} _.
Arguments Bad {A} _.

(** [core.Genesis], as decoded; nothing of it is read here. *)
Definition Genesis := bytes.

Record Env := mkEnv {
  (** [os.Open(path)] and the content that is then read *)
  Open : string -> fallible bytes;
  (** [json.NewDecoder(file).Decode(genesis)] *)
  Decode : bytes -> fallible Genesis;
  (** the error of [stack.OpenDatabase(name, 0, 0, "")], if any *)
  OpenDatabase : string -> option error;
  (** [core.SetupGenesisBlock(chaindb, genesis)] on the database of that
      name: the hash of the genesis block, or the error *)
  SetupGenesisBlock : string -> Genesis -> fallible Common.Hash
}.

(** What the command did to the databases, in order. *)
Inductive event :=
| EvOpenDatabase (name : string)
| EvSetup (name : string) (genesis : Genesis)
| EvWrote (name : string) (hash : Common.Hash).

(** The loop [for _, name := range []string{...}], with the events so
    far. *)
Fixpoint setupAll (E : Env) (genesis : Genesis) (names : list string)
    (evs : list event) : outcome * list event :=
  match names with
  | [] => (Returned None, evs)
  | name :: rest =>
      let evs := evs ++ [EvOpenDatabase name] in
      match OpenDatabase E name with
      | Some err => (Fatal (String.append "Failed to open database: " err), evs)
      | None =>
          let evs := evs ++ [EvSetup name genesis] in
          match SetupGenesisBlock E name genesis with
          | Bad err =>
              (Fatal (String.append "Failed to write genesis block: " err), evs)
          | Good hash => setupAll E genesis rest (evs ++ [EvWrote name hash])
          end
      end
  end.

Record Run := mkRun {
  ended : outcome;
  events : list event
}.

(** [func initGenesis(ctx *cli.Context) error].  [makeFullNode] is taken
    to succeed. *)
Definition initGenesis (E : Env) (args : Args) : Run :=
  (* Make sure we have a valid genesis JSON *)
  let genesisPath := First args in
  if Z.of_nat (String.length genesisPath) =? 0 then
    mkRun (Fatal "Must supply path to genesis JSON file") []
  else
    match Open E genesisPath with
    | Bad err => mkRun (Fatal (String.append "Failed to read genesis file: " err)) []
    | Good file =>
        match Decode E file with
        | Bad err => mkRun (Fatal (String.append "invalid genesis file: " err)) []
        | Good genesis =>
            (* Open an initialise both full and light databases *)
            let '(o, evs) :=
              setupAll E genesis ["chaindata"; "lightchaindata"]%string [] in
            mkRun o evs
        end
    end.

End GenesisCmd.

(* ===================================================================== *)
(** * Concrete services, stores and files used as examples                *)
(* ===================================================================== *)

Module Examples.

(** An implementation whose [OnStart] fails the first time it is called:
    its state counts the calls. *)
Definition flakyOnStart (n : nat) : nat * option error :=
  match n with
  | O => (1%nat, Some "not ready"%string)
  | S _ => (S n, None)
  end.

Definition noReset (n : nat) : option (nat * option error) := None.

(** Three blocks of a chain, by height. *)
Definition block0 : Types.Block := Types.mkBlock 0 Census.emptyRoot 540.
Definition block1 : Types.Block := Types.mkBlock 1 Census.emptyRoot 612.
Definition block2 : Types.Block := Types.mkBlock 2 Census.emptyRoot 598.

(** A store whose canonical chain is these three blocks, on a disk where
    every path can be opened. *)
Definition exportEnv : ExportCmd.Env :=
  ExportCmd.mkEnv [block0; block1; block2] (fun _ => None).

Definition emptyDisk : ExportCmd.World := ExportCmd.mkWorld ∅ [].

(** Two import files: [a.rlp] holds two blocks, [b.rlp] one block, bytes
    that do not decode, and one more block.  Every block can be inserted,
    and the statistics can be read. *)
Definition importEnv : ImportCmd.Env :=
  ImportCmd.mkEnv
    (<["a.rlp"%string := [ImportCmd.RecBlock block1; ImportCmd.RecBlock block2]]>
       (<["b.rlp"%string :=
            [ImportCmd.RecBlock block1; ImportCmd.RecGarbage [xff];
             ImportCmd.RecBlock block2]]> ∅))
    (fun _ _ => None) (fun _ _ => None) true None.

(** A state with one account, as in the specification's census example:
    its TX1 and reward roots lead to sub-tries, its other three roots are
    [emptyRoot].  The account trie has one internal node and two leaves,
    the second under a key that is not an address. *)
Definition hashA : bytes := List.repeat x0a 32.
Definition hashB : bytes := List.repeat x0b 32.
Definition hashC : bytes := List.repeat x0c 32.
Definition hashD : bytes := List.repeat x0d 32.
Definition stateRoot : bytes := List.repeat x51 32.
Definition tx1Root : bytes := List.repeat x71 32.
Definition rewardRoot : bytes := List.repeat x72 32.
Definition address1 : bytes := List.repeat xa1 20.
Definition blob1 : bytes := [xf8; x01].
Definition blob2 : bytes := [xc0].

Definition account1 : Census.Account :=
  Census.mkAccount Census.emptyRoot tx1Root Census.emptyRoot Census.emptyRoot
    rewardRoot.

Definition noAccount : Census.Account :=
  Census.mkAccount Census.emptyRoot Census.emptyRoot Census.emptyRoot
    Census.emptyRoot Census.emptyRoot.

Definition accountTrie : Census.Trie :=
  Census.mkTrie
    [Census.Node hashA; Census.Leaf address1 blob1;
     Census.Leaf (List.repeat xb2 32) blob2]
    (fun k => k).

Definition tx1Trie : Census.Trie :=
  Census.mkTrie [Census.Node hashB; Census.Leaf [x01] [x2a]] (fun k => k).

Definition rewardTrie : Census.Trie :=
  Census.mkTrie
    [Census.Node hashC; Census.Node hashD; Census.Leaf [x02] [x2b]]
    (fun k => k).

Definition tries : gmap bytes Census.Trie :=
  <[stateRoot := accountTrie]>
    (<[tx1Root := tx1Trie]> (<[rewardRoot := rewardTrie]> ∅)).

Definition censusDatabase : Census.Database :=
  Census.mkDatabase (fun root => tries !! root)
    (fun _ root => tries !! root) (fun _ root => tries !! root)
    (fun _ root => tries !! root) (fun _ root => tries !! root)
    (fun _ root => tries !! root).

Definition block7 : Types.Block := Types.mkBlock 7 stateRoot 640.

(** A store that holds block 7 (and no other) and that state. *)
Definition censusEnv : Census.Env :=
  Census.mkEnv
    (<[hashA := [x01; x02; x03]]>
       (<[hashB := [x04]]> (<[hashC := [x05; x06]]> (<[hashD := [x07]]> ∅))))
    (fun height => if height =? 7 then List.repeat xb7 32 else Common.zeroHash)
    (fun hash height => if height =? 7 then Some block7 else None)
    censusDatabase
    (fun blob => if decide (blob = blob1) then account1 else noAccount)
    Common.hashHex Common.hexEncode
    None.

(** The same store after its state was pruned: no trie can be opened. *)
Definition prunedDatabase : Census.Database :=
  Census.mkDatabase (fun _ => None)
    (fun _ _ => None) (fun _ _ => None) (fun _ _ => None)
    (fun _ _ => None) (fun _ _ => None).

Definition prunedEnv : Census.Env :=
  Census.mkEnv ∅
    (Census.ReadCanonicalHash censusEnv) (Census.ReadBlock censusEnv)
    prunedDatabase (Census.DecodeAccount censusEnv)
    Common.hashHex Common.hexEncode None.

(** The store with the reward sub-trie of the account missing. *)
Definition brokenTries : gmap bytes Census.Trie :=
  <[stateRoot := accountTrie]> (<[tx1Root := tx1Trie]> ∅).

Definition brokenEnv : Census.Env :=
  Census.mkEnv (Census.chainDb censusEnv)
    (Census.ReadCanonicalHash censusEnv) (Census.ReadBlock censusEnv)
    (Census.mkDatabase (fun root => brokenTries !! root)
       (fun _ root => brokenTries !! root) (fun _ root => brokenTries !! root)
       (fun _ root => brokenTries !! root) (fun _ root => brokenTries !! root)
       (fun _ root => brokenTries !! root))
    (Census.DecodeAccount censusEnv)
    Common.hashHex Common.hexEncode None.

(** The store in a directory where the dump file cannot be created. *)
Definition readOnlyEnv : Census.Env :=
  Census.mkEnv (Census.chainDb censusEnv)
    (Census.ReadCanonicalHash censusEnv) (Census.ReadBlock censusEnv)
    censusDatabase (Census.DecodeAccount censusEnv)
    Common.hashHex Common.hexEncode (Some "permission denied"%string).

(** A chain of the three blocks, looked up by number only, with a state
    for [emptyRoot]. *)
Definition dumpEnv : DumpCmd.Env :=
  DumpCmd.mkEnv (fun _ => None)
    (fun n => if (0 <=? n) && (n <? 3)
              then List.nth_error [block0; block1; block2] (Z.to_nat n)
              else None)
    (fun root => if decide (root = Census.emptyRoot)
                 then DumpCmd.Dump "{ root: 56e8, accounts: {} }"
                 else DumpCmd.NoState "missing trie node").

(** A node directory in which the light database cannot be opened. *)
Definition genesisEnv : GenesisCmd.Env :=
  GenesisCmd.mkEnv
    (fun path => if String.eqb path "genesis.json"
                 then GenesisCmd.Good [x7b; x7d]
                 else GenesisCmd.Bad "no such file or directory")
    (fun file => GenesisCmd.Good file)
    (fun name => if String.eqb name "lightchaindata"
                 then Some "resource temporarily unavailable"%string else None)
    (fun _ _ => GenesisCmd.Good hashA).

(** The accumulator [CountSize{}] and the empty trace. *)
Definition freshCount : Census.St :=
  Census.mkSt (Census.mkCountSize 0 0 []) [].

End Examples.

(* ===================================================================== *)
(** * Properties of the service lifecycle                                 *)
(* ===================================================================== *)

Module ServiceFacts.

Import Service.

Section Facts.

Variable Impl : Type.
Variable OnStart : Impl -> Impl * option error.
Variable OnStop : Impl -> Impl.
Variable OnReset : Impl -> option (Impl * option error).

Implicit Types bs : BaseService Impl.

Lemma set_started_id bs : set_started (started bs) bs = bs.
Proof. now destruct bs. Qed.

Lemma set_stopped_id bs : set_stopped (stopped bs) bs = bs.
Proof. now destruct bs. Qed.

(** A started service refuses [Start] and is left as it was. *)
Lemma Start_started bs :
  started bs = 1 -> Start OnStart bs = (bs, (false, None)).
Proof.
  intros H. unfold Start, CompareAndSwapUint32. rewrite H. simpl.
  now rewrite <- H, set_started_id.
Qed.

(** A service that is not stopped refuses [Reset] and is left as it was. *)
Lemma Reset_not_stopped bs :
  stopped bs = 0 -> Reset OnReset bs = Some (bs, (false, None)).
Proof.
  intros H. unfold Reset, CompareAndSwapUint32. rewrite H. simpl.
  now rewrite <- H, set_stopped_id.
Qed.

(** What a [Start] that reaches [OnStart] does, when the hook succeeds. *)
Lemma Start_idle_ok bs i :
  started bs = 0 -> OnStart (impl bs) = (i, None) ->
  Start OnStart bs =
    (mkBS 1 (if stopped bs =? 1 then 0 else stopped bs) ChanOpen i
       (calls bs ++ [HookOnStart]), (true, None)).
Proof.
  intros H Hon. unfold Start, CompareAndSwapUint32. rewrite H. simpl.
  destruct (stopped bs =? 1) eqn:Hs; simpl; rewrite Hon; simpl;
    unfold set_impl; simpl; try rewrite Hs; reflexivity.
Qed.

(** ... and when the hook fails: the flag is reverted. *)
Lemma Start_idle_err bs i e :
  started bs = 0 -> OnStart (impl bs) = (i, Some e) ->
  Start OnStart bs =
    (mkBS 0 (if stopped bs =? 1 then 0 else stopped bs) ChanOpen i
       (calls bs ++ [HookOnStart]), (false, Some e)).
Proof.
  intros H Hon. unfold Start, CompareAndSwapUint32. rewrite H. simpl.
  destruct (stopped bs =? 1) eqn:Hs; simpl; rewrite Hon; simpl;
    unfold set_impl, set_started; simpl; try rewrite Hs; reflexivity.
Qed.

(** [Start] answers [true] only from the not-started state. *)
Lemma Start_true_inv bs bs' err :
  Start OnStart bs = (bs', (true, err)) ->
  started bs = 0 /\ err = None /\ exists i, OnStart (impl bs) = (i, None).
Proof.
  intros H. destruct (Z.eq_dec (started bs) 0) as [H0 | H0].
  - destruct (OnStart (impl bs)) as [i [e |]] eqn:Hon.
    + rewrite (Start_idle_err bs i e H0 Hon) in H. discriminate.
    + rewrite (Start_idle_ok bs i H0 Hon) in H. inversion H; subst. eauto.
  - unfold Start, CompareAndSwapUint32 in H.
    apply Z.eqb_neq in H0. rewrite H0 in H. discriminate.
Qed.

Lemma wf_Start bs : wf bs -> wf (fst (Start OnStart bs)).
Proof.
  intros [Hs Hp]. destruct Hs as [Hs | Hs].
  - destruct (OnStart (impl bs)) as [i [e |]] eqn:Hon.
    + rewrite (Start_idle_err bs i e Hs Hon). unfold wf; simpl.
      destruct Hp as [-> | ->]; simpl; auto.
    + rewrite (Start_idle_ok bs i Hs Hon). unfold wf; simpl.
      destruct Hp as [-> | ->]; simpl; auto.
  - rewrite (Start_started bs Hs). unfold wf; simpl. auto.
Qed.

Lemma wf_Stop bs : wf bs -> wf (fst (Stop OnStop bs)).
Proof.
  intros [Hs Hp]. unfold Stop, CompareAndSwapUint32, wf.
  destruct Hp as [Hp | Hp], Hs as [Hs | Hs]; rewrite Hp; simpl;
    try rewrite Hs; simpl; try rewrite Hs; auto.
Qed.

Lemma wf_Reset bs bs' r : wf bs -> Reset OnReset bs = Some (bs', r) -> wf bs'.
Proof.
  intros [Hs Hp] H. unfold Reset, CompareAndSwapUint32 in H.
  destruct Hp as [Hp | Hp]; rewrite Hp in H; simpl in H.
  - inversion H; subst. unfold wf; simpl. auto.
  - destruct Hs as [Hs | Hs]; rewrite Hs in H; simpl in H;
      (destruct (OnReset (impl bs)) as [[i err] |]; [| discriminate]);
      inversion H; subst; unfold wf; simpl; auto.
Qed.

Lemma wf_NewBaseService (i : Impl) : wf (NewBaseService i).
Proof. unfold wf; simpl; auto. Qed.

(** Every state a client can bring a new service to has its flags at 0
    or 1. *)
Lemma wf_run cs : forall bs bs' rs,
  wf bs -> run OnStart OnStop OnReset cs bs = Some (bs', rs) -> wf bs'.
Proof.
  induction cs as [| c cs IH]; intros bs bs' rs Hwf H; cbn [run] in H.
  - now inversion H; subst.
  - destruct (exec OnStart OnStop OnReset c bs) as [[bs1 r] |] eqn:Hc;
      [| discriminate].
    destruct (run OnStart OnStop OnReset cs bs1) as [[bs2 rs2] |] eqn:Hr;
      [| discriminate].
    inversion H; subst. apply (IH bs1 bs' rs2); [| exact Hr].
    destruct c; cbn [exec] in Hc.
    + pose proof (wf_Start bs Hwf) as Hw.
      destruct (Start OnStart bs) as [b [ok e]]. now inversion Hc; subst.
    + pose proof (wf_Stop bs Hwf) as Hw.
      destruct (Stop OnStop bs) as [b ok]. now inversion Hc; subst.
    + destruct (Reset OnReset bs) as [[b [ok e]] |] eqn:HR; [| discriminate].
      inversion Hc; subst. exact (wf_Reset bs bs1 _ Hwf HR).
    + now inversion Hc; subst.
Qed.

(** While nobody calls [Stop], a running service stays as it is, and every
    [Start] is refused. *)
Lemma run_running bs cs :
  started bs = 1 -> stopped bs = 0 ->
  forallb (fun c => negb (is_stop c)) cs = true ->
  exists rs, run OnStart OnStop OnReset cs bs = Some (bs, rs)
             /\ Forall start_refused rs.
Proof.
  intros Hs Hp. induction cs as [| c cs IH]; intros Hno.
  - exists []. split; [reflexivity | constructor].
  - simpl in Hno. apply andb_prop in Hno as [Hc Hcs].
    destruct (IH Hcs) as [rs [Hrun Hall]].
    destruct c; simpl in Hc; try discriminate; cbn [run exec].
    + rewrite (Start_started bs Hs), Hrun.
      eexists; split; [reflexivity |]. constructor; [simpl; auto | exact Hall].
    + rewrite (Reset_not_stopped bs Hp), Hrun.
      eexists; split; [reflexivity |]. constructor; [exact I | exact Hall].
    + rewrite Hrun.
      eexists; split; [reflexivity |]. constructor; [exact I | exact Hall].
Qed.

(** C10.  Once [Start] has returned [(true, nil)], [IsRunning()] is true,
    and in any later session of calls that contains no [Stop] every call
    leaves the service as it is, so that every [Start] in it returns
    [(false, nil)] and [OnStart] is not invoked again.  If [OnStart]
    returns an error [e], [Start] returns [(false, e)] with the started
    flag back at 0, and the next [Start] invokes [OnStart] once more. *)
Theorem Start_lifecycle bs :
  wf bs ->
  (forall bs',
      Start OnStart bs = (bs', (true, None)) ->
      IsRunning bs' = true
      /\ forall cs, forallb (fun c => negb (is_stop c)) cs = true ->
           exists rs, run OnStart OnStop OnReset cs bs' = Some (bs', rs)
                      /\ Forall start_refused rs)
  /\ (forall e,
        started bs = 0 -> snd (OnStart (impl bs)) = Some e ->
        exists bs',
          Start OnStart bs = (bs', (false, Some e))
          /\ started bs' = 0
          /\ calls bs' = calls bs ++ [HookOnStart]
          /\ calls (fst (Start OnStart bs')) = calls bs' ++ [HookOnStart]).
Proof.
  intros Hwf. split.
  - intros bs' HS.
    destruct (Start_true_inv _ _ _ HS) as [H0 [_ [i Hon]]].
    rewrite (Start_idle_ok bs i H0 Hon) in HS. inversion HS; subst bs'; clear HS.
    assert (Hp : (if stopped bs =? 1 then 0 else stopped bs) = 0).
    { destruct Hwf as [_ [-> | ->]]; reflexivity. }
    rewrite Hp. split; [reflexivity |].
    intros cs Hcs. apply run_running; auto.
  - intros e H0 Hon. destruct (OnStart (impl bs)) as [i err] eqn:HO.
    simpl in Hon; subst err.
    eexists. split; [apply (Start_idle_err bs i e H0 HO) |].
    repeat split.
    set (bs' := mkBS _ _ _ _ _).
    assert (H0' : started bs' = 0) by reflexivity.
    destruct (OnStart (impl bs')) as [i' [e' |]] eqn:HO'.
    + now rewrite (Start_idle_err bs' i' e' H0' HO').
    + now rewrite (Start_idle_ok bs' i' H0' HO').
Qed.

End Facts.

Lemma Start_lifecycle_witness :
  wf (NewBaseService 1%nat)
  /\ IsRunning (fst (Start Examples.flakyOnStart (NewBaseService 1%nat))) = true
  /\ (exists rs,
        run Examples.flakyOnStart (fun n => n) Examples.noReset
          [CallStart; CallIsRunning; CallReset; CallStart]
          (fst (Start Examples.flakyOnStart (NewBaseService 1%nat)))
        = Some (fst (Start Examples.flakyOnStart (NewBaseService 1%nat)), rs)
        /\ Forall start_refused rs).
Proof.
  pose proof (Start_lifecycle nat Examples.flakyOnStart (fun n => n)
                Examples.noReset (NewBaseService 1%nat)
                (wf_NewBaseService nat 1%nat)) as [H _].
  split; [apply wf_NewBaseService |].
  specialize (H _ eq_refl) as [Hrun Hcs].
  split; [exact Hrun |].
  exact (Hcs [CallStart; CallIsRunning; CallReset; CallStart] eq_refl).
Defined.

(** The failing hook: the first [Start] reports the error and the second
    one reaches [OnStart] again. *)
Example Start_after_failure :
  Start Examples.flakyOnStart (NewBaseService 0%nat)
  = (mkBS 0 0 ChanOpen 1%nat [HookOnStart], (false, Some "not ready"%string))
  /\ Start Examples.flakyOnStart (mkBS 0 0 ChanOpen 1%nat [HookOnStart])
     = (mkBS 1 0 ChanOpen 2%nat [HookOnStart; HookOnStart], (true, None)).
Proof. split; reflexivity. Qed.

End ServiceFacts.

(* ===================================================================== *)
(** * Properties of the memory observer                                   *)
(* ===================================================================== *)

Module MemObserverFacts.

Import MemObserver.

Lemma sample_alloc p st :
  peakMemAlloc (sample p st) = Z.max (peakMemAlloc p) (Alloc st).
Proof.
  unfold sample; simpl. destruct (Z.ltb_spec (peakMemAlloc p) (Alloc st)); lia.
Qed.

Lemma sample_sys p st :
  peakMemSys (sample p st) = Z.max (peakMemSys p) (Sys st).
Proof.
  unfold sample; simpl. destruct (Z.ltb_spec (peakMemSys p) (Sys st)); lia.
Qed.

(** The order on pairs of peaks. *)
Definition peaks_le (p q : Peaks) : Prop :=
  peakMemAlloc p <= peakMemAlloc q /\ peakMemSys p <= peakMemSys q.

Lemma peaks_le_sample p st : peaks_le p (sample p st).
Proof. unfold peaks_le. rewrite sample_alloc, sample_sys. lia. Qed.

Lemma peaks_le_observe samples : forall p, peaks_le p (observe samples p).
Proof.
  induction samples as [| st samples IH]; intros p.
  - unfold peaks_le; simpl; lia.
  - simpl. pose proof (peaks_le_sample p st) as [Ha Hs].
    destruct (IH (sample p st)) as [Ha' Hs']. unfold peaks_le. lia.
Qed.

Lemma observe_snoc samples st p :
  observe (samples ++ [st]) p = sample (observe samples p) st.
Proof. unfold observe. now rewrite fold_left_app. Qed.

(** C7.  The observer starts from the peaks as they are, and after every
    sampling turn of its loop each recorded peak is the maximum of its
    value before the turn and the value sampled in the turn; so a turn
    never lowers a peak, and the peaks after more turns are never below
    the peaks after fewer. *)
Theorem peaks_monotone :
  (forall p, observe [] p = p)
  /\ (forall samples st p,
        peakMemAlloc (observe (samples ++ [st]) p)
        = Z.max (peakMemAlloc (observe samples p)) (Alloc st)
        /\ peakMemSys (observe (samples ++ [st]) p)
           = Z.max (peakMemSys (observe samples p)) (Sys st)
        /\ peaks_le (observe samples p) (observe (samples ++ [st]) p))
  /\ (forall p st,
        peakMemAlloc (sample p st) = Z.max (peakMemAlloc p) (Alloc st)
        /\ peakMemSys (sample p st) = Z.max (peakMemSys p) (Sys st)
        /\ peaks_le p (sample p st))
  /\ (forall samples more p,
        peaks_le (observe samples p) (observe (samples ++ more) p)).
Proof.
  split; [reflexivity |]. split; [| split].
  - intros samples st p. rewrite observe_snoc.
    auto using sample_alloc, sample_sys, peaks_le_sample.
  - intros p st. auto using sample_alloc, sample_sys, peaks_le_sample.
  - intros samples more p. unfold observe at 2.
    rewrite fold_left_app. apply peaks_le_observe.
Qed.

(** Three samples, the largest in the middle. *)
Example observe_three :
  observe [mkMemStats 10 70; mkMemStats 40 90; mkMemStats 25 80] init
  = mkPeaks 40 90.
Proof. reflexivity. Qed.

End MemObserverFacts.

(* ===================================================================== *)
(** * Properties of exportChain                                           *)
(* ===================================================================== *)

Module ExportFacts.

Import ExportCmd.

(** With fewer than four arguments the command is the whole-chain export
    of its second argument. *)
Lemma exportChain_whole E args w :
  1 <= len args < 4 -> First args <> EmptyString ->
  exportChain E args w =
    match snd (ExportChain E (Get args 1) w) with
    | Some e => mkRun (Fatal (String.append "Export error: " e))
                  (fst (ExportChain E (Get args 1) w))
    | None => mkRun (Returned None) (fst (ExportChain E (Get args 1) w))
    end.
Proof.
  intros [H1 H4] Hname. unfold exportChain.
  destruct (Z.ltb_spec (len args) 1); [lia |].
  destruct (String.eqb_spec (First args) ""); [contradiction |].
  destruct (Z.ltb_spec (len args) 4); [reflexivity | lia].
Qed.

(** What the range check of the four-argument form lets through. *)
Definition boundsOk (a b : string) : bool :=
  negb (notNil (snd (Strconv.ParseInt a)) || notNil (snd (Strconv.ParseInt b)))
  && negb ((fst (Strconv.ParseInt a) <? 0) || (fst (Strconv.ParseInt b) <? 0)).

Lemma exportChain_bad_bounds E args w :
  4 <= len args ->
  boundsOk (Get args 2) (Get args 3) = false ->
  exists msg, exportChain E args w = mkRun (Fatal msg) w.
Proof.
  intros H4 Hbad. unfold exportChain.
  destruct (Z.ltb_spec (len args) 1); [eauto |].
  destruct (String.eqb (First args) ""); [eauto |].
  destruct (Z.ltb_spec (len args) 4); [lia |].
  unfold boundsOk in Hbad.
  destruct (Strconv.ParseInt (Get args 2)) as [first ferr].
  destruct (Strconv.ParseInt (Get args 3)) as [last lerr].
  simpl in Hbad.
  destruct (notNil ferr || notNil lerr); [eauto |].
  destruct ((first <? 0) || (last <? 0)); [eauto | discriminate].
Qed.

(** C6.  A ranged export (four or more arguments) one of whose bounds does
    not parse as an integer, or parses to a negative number, ends in a
    fatal error with the disk as it was: no path has been opened and no
    file written. *)
Theorem exportChain_rejects_bad_range E args w :
  4 <= len args ->
  snd (Strconv.ParseInt (Get args 2)) <> None
  \/ snd (Strconv.ParseInt (Get args 3)) <> None
  \/ fst (Strconv.ParseInt (Get args 2)) < 0
  \/ fst (Strconv.ParseInt (Get args 3)) < 0 ->
  exists msg,
    ended (exportChain E args w) = Fatal msg
    /\ world (exportChain E args w) = w
    /\ opened (world (exportChain E args w)) = opened w
    /\ fs (world (exportChain E args w)) = fs w.
Proof.
  intros H4 Hbad.
  destruct (exportChain_bad_bounds E args w H4) as [msg Hrun].
  - unfold boundsOk.
    destruct (Strconv.ParseInt (Get args 2)) as [first ferr].
    destruct (Strconv.ParseInt (Get args 3)) as [last lerr].
    simpl in *.
    destruct ferr as [fe |]; [reflexivity |].
    destruct lerr as [le |]; [reflexivity |]. simpl.
    destruct Hbad as [Hb | [Hb | [Hb | Hb]]]; try congruence.
    + destruct (Z.ltb_spec first 0); [reflexivity | lia].
    + destruct (Z.ltb_spec last 0); [now rewrite orb_true_r | lia].
  - exists msg. rewrite Hrun. simpl. auto.
Qed.

Lemma exportChain_rejects_bad_range_witness :
  4 <= len ["pchain"; "out.rlp"; "-1"; "20"]%string
  /\ exists msg,
       ended (exportChain Examples.exportEnv
                ["pchain"; "out.rlp"; "-1"; "20"]%string Examples.emptyDisk)
       = Fatal msg
       /\ world (exportChain Examples.exportEnv
                   ["pchain"; "out.rlp"; "-1"; "20"]%string Examples.emptyDisk)
          = Examples.emptyDisk.
Proof.
  split; [vm_compute; discriminate |].
  destruct (exportChain_rejects_bad_range Examples.exportEnv
              ["pchain"; "out.rlp"; "-1"; "20"]%string Examples.emptyDisk)
    as [msg [He [Hw _]]].
  - vm_compute; discriminate.
  - right; right; left. vm_compute. reflexivity.
  - exists msg. split; [exact He | exact Hw].
Defined.

(** A bound that is not a number, in either place. *)
Example exportChain_not_a_number :
  exportChain Examples.exportEnv ["pchain"; "out.rlp"; "ten"; "20"]%string
    Examples.emptyDisk
  = mkRun (Fatal "Export error in parsing parameters: block number not an integer")
      Examples.emptyDisk
  /\ exportChain Examples.exportEnv ["pchain"; "out.rlp"; "10"; ""]%string
       Examples.emptyDisk
     = mkRun (Fatal "Export error in parsing parameters: block number not an integer")
         Examples.emptyDisk.
Proof. split; reflexivity. Qed.

(** C9.  With exactly three arguments (chain name, path and one number) the
    command does what it does without the number: the third argument is
    not read, and the whole canonical chain goes to the path by
    [ExportChain].  Whenever fewer than four arguments are given the
    whole-chain export is the one performed, so the appending, ranged
    export needs both bounds. *)
Theorem exportChain_lone_bound_ignored E name fp bound w :
  name <> EmptyString ->
  exportChain E [name; fp; bound] w = exportChain E [name; fp] w
  /\ world (exportChain E [name; fp; bound] w) = fst (ExportChain E fp w)
  /\ (OpenErr E fp = None ->
      ended (exportChain E [name; fp; bound] w) = Returned None
      /\ fs (world (exportChain E [name; fp; bound] w)) !! fp
         = Some (canonical E))
  /\ (forall args, 1 <= len args < 4 -> First args = name ->
      world (exportChain E args w) = fst (ExportChain E (Get args 1) w)).
Proof.
  intros Hname.
  assert (Hwhole : forall args, 1 <= len args < 4 -> First args = name ->
            world (exportChain E args w) = fst (ExportChain E (Get args 1) w)).
  { intros args Hlen Hfirst. rewrite exportChain_whole; auto.
    - now destruct (snd (ExportChain E (Get args 1) w)).
    - now rewrite Hfirst. }
  split; [| split; [| split]].
  - rewrite !exportChain_whole; auto; unfold len; simpl; lia.
  - apply (Hwhole [name; fp; bound]); [unfold len; simpl; lia | reflexivity].
  - intros Hopen. rewrite exportChain_whole; auto; [| unfold len; simpl; lia].
    unfold Get; simpl. unfold ExportChain. rewrite Hopen. simpl.
    split; [reflexivity | apply lookup_insert_eq].
  - exact Hwhole.
Qed.

Lemma exportChain_lone_bound_ignored_witness :
  "pchain"%string <> EmptyString
  /\ exportChain Examples.exportEnv ["pchain"; "out.rlp"; "10"]%string
       Examples.emptyDisk
     = exportChain Examples.exportEnv ["pchain"; "out.rlp"]%string
         Examples.emptyDisk
  /\ fs (world (exportChain Examples.exportEnv
                  ["pchain"; "out.rlp"; "10"]%string Examples.emptyDisk))
       !! "out.rlp"%string
     = Some [Examples.block0; Examples.block1; Examples.block2].
Proof.
  assert (Hname : "pchain"%string <> EmptyString) by discriminate.
  destruct (exportChain_lone_bound_ignored Examples.exportEnv
              "pchain" "out.rlp" "10" Examples.emptyDisk Hname)
    as [Heq [_ [Hfs _]]].
  split; [exact Hname |]. split; [exact Heq |].
  exact (proj2 (Hfs eq_refl)).
Defined.

(** With both bounds the blocks of the range are appended. *)
Example exportChain_range :
  fs (world (exportChain Examples.exportEnv
               ["pchain"; "out.rlp"; "1"; "2"]%string Examples.emptyDisk))
    !! "out.rlp"%string
  = Some [Examples.block1; Examples.block2].
Proof. vm_compute. reflexivity. Qed.

End ExportFacts.

(* ===================================================================== *)
(** * Properties of importChain                                           *)
(* ===================================================================== *)

Module ImportFacts.

Import ImportCmd.

Section Facts.

Variable E : Env.

(** The blocks among some records. *)
Definition blocksOf (recs : list record) : list Types.Block :=
  omap (fun r => match r with RecBlock b => Some b | RecGarbage _ => None end)
    recs.

(** The chain after importing the files [fns] one after the other, each on
    the chain the one before left, whatever each import returned. *)
Fixpoint importFiles (fns : list string) (chain : Chain) : Chain :=
  match fns with
  | [] => chain
  | fn :: rest => importFiles rest (fst (ImportChain E chain fn))
  end.

(** The errors of those imports, with their files, in order. *)
Fixpoint fileErrors (fns : list string) (chain : Chain) : list logEntry :=
  match fns with
  | [] => []
  | fn :: rest =>
      (match snd (ImportChain E chain fn) with
       | Some e => [mkLog (Some fn) e]
       | None => []
       end) ++ fileErrors rest (fst (ImportChain E chain fn))
  end.

(** An import stops at the first record that fails: the blocks before it
    are on the chain, nothing after it is. *)
Lemma importRecords_stops recs : forall chain,
  exists pre post,
    recs = pre ++ post
    /\ fst (importRecords E recs chain) = chain ++ blocksOf pre
    /\ List.length (blocksOf pre) = List.length pre
    /\ (snd (importRecords E recs chain) = None <-> post = []).
Proof.
  induction recs as [| r recs IH]; intros chain.
  - exists [], []. simpl. rewrite app_nil_r. repeat split; auto.
  - destruct r as [b | raw]; simpl.
    + destruct (InsertBlock E chain b) as [e |] eqn:Hins.
      * exists [], (RecBlock b :: recs). simpl. rewrite app_nil_r.
        repeat split; auto; discriminate.
      * destruct (IH (chain ++ [b])) as (pre & post & Hrecs & Hfst & Hlen & Herr).
        exists (RecBlock b :: pre), post. simpl.
        rewrite Hfst, <- app_assoc. simpl. subst recs.
        repeat split; auto; apply Herr.
    + exists [], (RecGarbage raw :: recs). simpl. rewrite app_nil_r.
      repeat split; auto; discriminate.
Qed.

(** An import without error puts every block of the file on the chain. *)
Lemma importRecords_all recs chain :
  snd (importRecords E recs chain) = None ->
  fst (importRecords E recs chain) = chain ++ blocksOf recs
  /\ forall b, RecBlock b ∈ recs -> b ∈ blocksOf recs.
Proof.
  intros Hok.
  destruct (importRecords_stops recs chain) as (pre & post & Hrecs & Hfst & _ & Herr).
  apply Herr in Hok. subst post. rewrite app_nil_r in Hrecs. subst pre.
  split; [exact Hfst |].
  intros b Hb. unfold blocksOf. apply list_elem_of_omap.
  exists (RecBlock b). auto.
Qed.

(** Importing a file only ever adds to the chain. *)
Lemma ImportChain_extends chain fn :
  exists bs, fst (ImportChain E chain fn) = chain ++ bs.
Proof.
  unfold ImportChain. destruct (files E !! fn) as [recs |].
  - destruct (importRecords_stops recs chain) as (pre & _ & _ & Hfst & _).
    eauto.
  - exists []. simpl. now rewrite app_nil_r.
Qed.

Lemma importFiles_extends fns : forall chain,
  exists bs, importFiles fns chain = chain ++ bs.
Proof.
  induction fns as [| fn fns IH]; intros chain; simpl.
  - exists []. now rewrite app_nil_r.
  - destruct (ImportChain_extends chain fn) as [bs Hbs].
    destruct (IH (fst (ImportChain E chain fn))) as [bs' Hbs'].
    exists (bs ++ bs'). now rewrite Hbs', Hbs, app_assoc.
Qed.

Lemma importFiles_app pre post chain :
  importFiles (pre ++ post) chain = importFiles post (importFiles pre chain).
Proof.
  revert chain. induction pre as [| fn pre IH]; intros chain; simpl; auto.
Qed.

Lemma fileErrors_app pre post chain :
  fileErrors (pre ++ post) chain
  = fileErrors pre chain ++ fileErrors post (importFiles pre chain).
Proof.
  revert chain. induction pre as [| fn pre IH]; intros chain; simpl; auto.
  now rewrite IH, app_assoc.
Qed.

(** The loop over the arguments, past the chain name. *)
Lemma importArgs_files fns : forall i chain log,
  i <> 0%nat ->
  importArgs E i fns chain log
  = (importFiles fns chain, log ++ fileErrors fns chain).
Proof.
  induction fns as [| fn fns IH]; intros i chain log Hi; simpl.
  - now rewrite app_nil_r.
  - destruct (Nat.eqb_spec i 0); [contradiction |].
    destruct (ImportChain E chain fn) as [chain' [e |]]; simpl;
      rewrite IH by discriminate; [now rewrite <- app_assoc | reflexivity].
Qed.

(** What follows the import ends in [nil] or in a fatal error of its own. *)
Lemma afterImport_no_error e : afterImport E <> Returned (Some e).
Proof.
  unfold afterImport.
  repeat match goal with
         | |- context [match ?x with _ => _ end] => destruct x
         end; discriminate.
Qed.

(** The command with one file. *)
Lemma importChain_single name fn chain0 :
  name <> EmptyString ->
  importChain E [name; fn] chain0
  = mkRun (afterImport E) (fst (ImportChain E chain0 fn))
      match snd (ImportChain E chain0 fn) with
      | Some e => [mkLog None e]
      | None => []
      end.
Proof.
  intros Hname. unfold importChain. simpl.
  destruct (String.eqb_spec (First [name; fn]) ""); [contradiction |].
  unfold Get; simpl. now destruct (ImportChain E chain0 fn) as [chain' [e |]].
Qed.

(** The command with no file or with several. *)
Lemma importChain_many name fns chain0 :
  name <> EmptyString -> List.length fns <> 1%nat ->
  importChain E (name :: fns) chain0
  = mkRun (afterImport E) (importFiles fns chain0) (fileErrors fns chain0).
Proof.
  intros Hname Hlen. unfold importChain.
  assert (H1 : (len (name :: fns) <? 1) = false).
  { apply Z.ltb_ge. unfold len. simpl. lia. }
  assert (H2 : (len (name :: fns) =? 2) = false).
  { apply Z.eqb_neq. unfold len. simpl. lia. }
  rewrite H1, H2.
  destruct (String.eqb_spec (First (name :: fns)) ""); [contradiction |].
  simpl. now rewrite importArgs_files by discriminate.
Qed.

(** C5.  With more than one file path the files are imported in the given
    order, each on the chain the one before left, whether or not an
    earlier import failed.  The error of a failing file is logged with
    the file, and every block of a file whose import did not fail is on
    the final chain. *)
Theorem importChain_files_independent name fns chain0 :
  name <> EmptyString -> (1 < List.length fns)%nat ->
  let r := importChain E (name :: fns) chain0 in
  chain r = importFiles fns chain0
  /\ ended r = afterImport E
  /\ forall pre fn post, fns = pre ++ fn :: post ->
       let before := importFiles pre chain0 in
       (forall e, snd (ImportChain E before fn) = Some e ->
          mkLog (Some fn) e ∈ logged r)
       /\ (snd (ImportChain E before fn) = None ->
           forall recs b, files E !! fn = Some recs -> RecBlock b ∈ recs ->
             b ∈ chain r).
Proof.
  intros Hname Hlen r. subst r.
  rewrite (importChain_many name fns chain0 Hname) by lia. simpl.
  split; [reflexivity |]. split; [reflexivity |].
  intros pre fn post Hfns. subst fns. split.
  - intros e He. rewrite fileErrors_app. simpl. rewrite He.
    apply elem_of_app. right. apply elem_of_app. left. apply list_elem_of_singleton.
    reflexivity.
  - intros Hok recs b Hfile Hb.
    rewrite importFiles_app. simpl.
    destruct (importFiles_extends post
                (fst (ImportChain E (importFiles pre chain0) fn))) as [bs Hbs].
    rewrite Hbs. apply elem_of_app. left.
    unfold ImportChain in *. rewrite Hfile in *.
    destruct (importRecords_all recs _ Hok) as [Hfst Hall].
    rewrite Hfst. apply elem_of_app. right. auto.
Qed.

End Facts.

(** C4, at the import of the one file [b.rlp], whose second record does
    not decode.  The import of the file stops at that record with an
    error: the block before it is on the chain, the block after it is
    not.  The command does not fail with that error, as the claim and its
    own description ("If only one file is used, import error will result
    in failure") say: it logs the error, goes on to the statistics and
    returns nil. *)
Theorem importChain_single_file_error_not_returned :
  ImportChain Examples.importEnv [] "b.rlp"
  = ([Examples.block1], Some "invalid block: decode error"%string)
  /\ importChain Examples.importEnv ["pchain"; "b.rlp"]%string []
     = mkRun (Returned None) [Examples.block1]
         [mkLog None "invalid block: decode error"].
Proof. split; vm_compute; reflexivity. Qed.

Lemma importChain_files_independent_witness :
  "pchain"%string <> EmptyString
  /\ (1 < List.length ["b.rlp"; "a.rlp"]%string)%nat
  /\ mkLog (Some "b.rlp"%string) "invalid block: decode error"
       ∈ logged (importChain Examples.importEnv
                   ["pchain"; "b.rlp"; "a.rlp"]%string [])
  /\ Examples.block2
       ∈ chain (importChain Examples.importEnv
                  ["pchain"; "b.rlp"; "a.rlp"]%string []).
Proof.
  assert (Hname : "pchain"%string <> EmptyString) by discriminate.
  assert (Hlen : (1 < List.length ["b.rlp"; "a.rlp"]%string)%nat)
    by (simpl; lia).
  destruct (importChain_files_independent Examples.importEnv
              "pchain" ["b.rlp"; "a.rlp"]%string [] Hname Hlen)
    as (_ & _ & Hfiles).
  split; [exact Hname |]. split; [exact Hlen |]. split.
  - destruct (Hfiles [] "b.rlp"%string ["a.rlp"%string] eq_refl) as [Hlog _].
    apply Hlog. vm_compute. reflexivity.
  - destruct (Hfiles ["b.rlp"%string] "a.rlp"%string [] eq_refl) as [_ Hin].
    apply (Hin eq_refl [RecBlock Examples.block1; RecBlock Examples.block2]).
    + vm_compute. reflexivity.
    + apply elem_of_cons. right. apply elem_of_cons. left. reflexivity.
Defined.

End ImportFacts.

(* ===================================================================== *)
(** * Properties of the census                                            *)
(* ===================================================================== *)

Module CensusFacts.

Import Common Census.

(** ** Arithmetic of [int] *)

Lemma wrapInt_add_l a b : wrapInt (wrapInt a + b) = wrapInt (a + b).
Proof.
  unfold wrapInt. set (h := 2 ^ 63). set (m := 2 ^ 64).
  replace ((a + h) mod m - h + b + h) with ((a + h) mod m + b) by lia.
  rewrite Zplus_mod_idemp_l.
  f_equal. f_equal. lia.
Qed.

Lemma wrapInt_small z : - 2 ^ 63 <= z < 2 ^ 63 -> wrapInt z = z.
Proof.
  intros H. unfold wrapInt.
  change (2 ^ 64) with 18446744073709551616.
  change (2 ^ 63) with 9223372036854775808 in *.
  rewrite Z.mod_small; lia.
Qed.

Lemma wrapInt_idem z : wrapInt (wrapInt z) = wrapInt z.
Proof.
  replace (wrapInt (wrapInt z)) with (wrapInt (wrapInt z + 0))
    by (f_equal; lia).
  rewrite wrapInt_add_l. f_equal. lia.
Qed.

Lemma len_app {A} (l1 l2 : list A) : len (l1 ++ l2) = len l1 + len l2.
Proof. unfold len. rewrite length_app. lia. Qed.

Lemma len_nonneg {A} (l : list A) : 0 <= len l.
Proof. unfold len. lia. Qed.

(** The sum of a list of integers. *)
Definition sumZ (l : list Z) : Z := List.fold_right Z.add 0 l.

Lemma sumZ_cons x l : sumZ (x :: l) = x + sumZ l.
Proof. reflexivity. Qed.

Lemma sumZ_app l1 l2 : sumZ (l1 ++ l2) = sumZ l1 + sumZ l2.
Proof. induction l1 as [| x l1 IH]; simpl; lia. Qed.

Section Facts.

Variable E : Env.

(** ** What a walk is expected to add *)

(** The hashes of the internal nodes among some positions of an iterator,
    in order. *)
Definition nodesOf (its : list item) : list Hash :=
  omap (fun it => match it with Node h => Some h | Leaf _ _ => None end) its.

(** The internal nodes of a trie, in the order its iterator visits them. *)
Definition internalNodes (t : Trie) : list Hash := nodesOf (NodeIterator t).

(** The raw stored bytes of a node. *)
Definition stored (h : Hash) : bytes := dbGet (chainDb E) h.

(** The accumulator after the nodes [hs] were added to [c]: each adds the
    length of its stored bytes, one node, and one pair to the dump. *)
Definition addNodes (hs : list Hash) (c : CountSize) : CountSize :=
  {| Totalnodevaluesize :=
       wrapInt (Totalnodevaluesize c + sumZ (map (fun h => len (stored h)) hs));
     Totalnode := wrapInt (Totalnode c + len hs);
     Data := Data c ++
             map (fun h => mkNodeData (HashString E h) (Bytes2Hex E (stored h))) hs |}.

(** The counters of an accumulator are [int]s. *)
Definition isInt (z : Z) : Prop := wrapInt z = z.

Definition wfCount (c : CountSize) : Prop :=
  isInt (Totalnodevaluesize c) /\ isInt (Totalnode c).

Lemma wfCount_zero : wfCount (mkCountSize 0 0 []).
Proof. split; reflexivity. Qed.

Lemma wfCount_addNodes hs c : wfCount (addNodes hs c).
Proof. split; apply wrapInt_idem. Qed.

Lemma addNodes_nil c : wfCount c -> addNodes [] c = c.
Proof.
  intros [Hb Hn]. destruct c as [b n d]. unfold addNodes, isInt, len in *.
  simpl in *. rewrite ?Z.add_0_r, ?app_nil_r. now f_equal.
Qed.

Lemma addNodes_app hs1 hs2 c :
  addNodes (hs1 ++ hs2) c = addNodes hs2 (addNodes hs1 c).
Proof.
  unfold addNodes. simpl.
  rewrite !wrapInt_add_l, !map_app, sumZ_app, len_app, app_assoc.
  f_equal; f_equal; lia.
Qed.

(** The sub-tries of an account, by kind, in the order the census takes
    them. *)
Definition subRoots (a : Account) : list (trieKind * Hash) :=
  [(KStorage, Root a); (KTX1, TX1Root a); (KTX3, TX3Root a);
   (KProxied, ProxiedRoot a); (KReward, RewardRoot a)].

Definition openSub (k : trieKind) (root : Hash) : option Trie :=
  let db := stateDatabase E in
  match k with
  | KStorage => OpenStorageTrie db zeroHash root
  | KTX1 => OpenTX1Trie db zeroHash root
  | KTX3 => OpenTX3Trie db zeroHash root
  | KProxied => OpenProxiedTrie db zeroHash root
  | KReward => OpenRewardTrie db zeroHash root
  end.

(** The internal nodes under one root of an account: none when the root
    is [emptyRoot]. *)
Definition subNodes (kr : trieKind * Hash) : list Hash :=
  if decide (kr.2 <> emptyRoot) then
    match openSub kr.1 kr.2 with
    | Some t => internalNodes t
    | None => []
    end
  else [].

Definition accountNodes (a : Account) : list Hash :=
  concat (map subNodes (subRoots a)).

(** The account a leaf of the account trie stands for, when its key is an
    address. *)
Definition accountOf (t : Trie) (it : item) : option Account :=
  match it with
  | Leaf k blob =>
      if len (GetKey t k) =? 20 then Some (DecodeAccount E blob) else None
  | Node _ => None
  end.

Definition accounts (t : Trie) : list Account :=
  omap (accountOf t) (NodeIterator t).

(** The internal nodes a census of the account trie [t] visits at one
    position, and over some positions, in order. *)
Definition visitedAt (t : Trie) (it : item) : list Hash :=
  match it with
  | Node h => [h]
  | Leaf _ _ =>
      match accountOf t it with
      | Some a => accountNodes a
      | None => []
      end
  end.

Definition visited (t : Trie) (its : list item) : list Hash :=
  concat (map (visitedAt t) its).

(** Every root of [a] that is not [emptyRoot] can be opened. *)
Definition resolvableAccount (a : Account) : bool :=
  forallb (fun kr => bool_decide (kr.2 = emptyRoot)
                     || bool_decide (is_Some (openSub kr.1 kr.2)))
    (subRoots a).

(** ... for every account among some positions of the account trie. *)
Definition resolvable (t : Trie) (its : list item) : bool :=
  forallb resolvableAccount (omap (accountOf t) its).

(** The number of nodes the specification expects of a census: the
    internal nodes of the account trie, and for each account and each of
    its five roots other than [emptyRoot] those of that sub-trie. *)
Definition subTrieCount (kr : trieKind * Hash) : Z :=
  if decide (kr.2 = emptyRoot) then 0
  else match openSub kr.1 kr.2 with
       | Some t => len (internalNodes t)
       | None => 0
       end.

Definition expectedNodes (t : Trie) : Z :=
  len (internalNodes t)
  + sumZ (map (fun a => sumZ (map subTrieCount (subRoots a))) (accounts t)).

(** Sub-tries are opened at roots other than [emptyRoot] only. *)
Definition okEvent (e : event) : Prop :=
  match e with
  | EvOpen _ root => root <> emptyRoot
  | _ => True
  end.

(** ** The walk of a trie *)

Lemma nodesOf_Node h its : nodesOf (Node h :: its) = [h] ++ nodesOf its.
Proof. reflexivity. Qed.

Lemma nodesOf_Leaf k blob its : nodesOf (Leaf k blob :: its) = nodesOf its.
Proof. reflexivity. Qed.

Lemma accounts_Node t h its :
  omap (accountOf t) (Node h :: its) = omap (accountOf t) its.
Proof. reflexivity. Qed.

Lemma accounts_Leaf t k blob its :
  omap (accountOf t) (Leaf k blob :: its)
  = if len (GetKey t k) =? 20
    then DecodeAccount E blob :: omap (accountOf t) its
    else omap (accountOf t) its.
Proof.
  change (omap (accountOf t) (Leaf k blob :: its))
    with (match accountOf t (Leaf k blob) with
          | Some a => a :: omap (accountOf t) its
          | None => omap (accountOf t) its
          end).
  simpl. now destruct (len (GetKey t k) =? 20).
Qed.

Lemma bind_Ok {A} (m : result A) : bind m Ok = m.
Proof. now destruct m. Qed.

Lemma countItems_app t pl its1 : forall its2 s,
  countItems E t pl (its1 ++ its2) s
  = bind (countItems E t pl its1 s) (countItems E t pl its2).
Proof.
  induction its1 as [| it its1 IH]; intros its2 s; simpl; [reflexivity |].
  destruct (countItem E t pl it s) as [s1 | msg]; simpl; auto.
Qed.

(** An internal node adds itself to the accumulator, whoever walks. *)
Lemma countItem_Node t pl h s :
  countItem E t pl (Node h) s
  = Ok {| count := addNodes [h] (count s); trace := trace s ++ [EvGet h] |}.
Proof.
  unfold countItem, emit, addNodes, int_add, stored, len. simpl.
  now rewrite Z.add_0_r.
Qed.

(** The walk of a trie whose leaves are not looked into. *)
Lemma countItems_None t its : forall s,
  wfCount (count s) ->
  countItems E t None its s
  = Ok {| count := addNodes (nodesOf its) (count s);
          trace := trace s ++ map EvGet (nodesOf its) |}.
Proof.
  induction its as [| [h | k blob] its IH]; intros s Hwf.
  - simpl. rewrite addNodes_nil, app_nil_r by exact Hwf. now destruct s.
  - cbn [countItems]. rewrite countItem_Node. cbn [bind].
    rewrite IH by apply wfCount_addNodes. cbn [count trace].
    now rewrite nodesOf_Node, addNodes_app, <- app_assoc.
  - cbn [countItems countItem bind]. rewrite nodesOf_Leaf. now rewrite IH.
Qed.

Lemma Forall_okEvent_Get l : Forall okEvent (map EvGet l).
Proof. induction l; constructor; simpl; auto. Qed.

(** One of the five sub-tries of an account. *)
Lemma countSub_spec open k root s :
  wfCount (count s) ->
  (forall r, open zeroHash r = openSub k r) ->
  bool_decide (root = emptyRoot) || bool_decide (is_Some (openSub k root))
  = true ->
  exists s',
    countSub E open k root s = Ok s'
    /\ count s' = addNodes (subNodes (k, root)) (count s)
    /\ (Forall okEvent (trace s) -> Forall okEvent (trace s')).
Proof.
  intros Hwf Hopen Hres. unfold countSub, subNodes. simpl.
  destruct (decide (root <> emptyRoot)) as [Hne | He].
  - apply orb_true_iff in Hres as [Hres | Hres];
      [apply bool_decide_eq_true in Hres; contradiction |].
    apply bool_decide_eq_true in Hres as [t Ht].
    rewrite Hopen, Ht. unfold countTrie.
    rewrite countItems_None by exact Hwf.
    eexists; split; [reflexivity |]. split; [reflexivity |].
    simpl. intros Hok. apply Forall_app. split; [| apply Forall_okEvent_Get].
    apply Forall_app. split; [exact Hok |]. constructor; [exact Hne | constructor].
  - exists s. rewrite addNodes_nil by exact Hwf. auto.
Qed.

Lemma wfCount_eq c c' hs : c' = addNodes hs c -> wfCount c'.
Proof. intros ->. apply wfCount_addNodes. Qed.

(** The closure that [countBlockState] passes for the account trie. *)
Lemma processAccount_spec addr a s :
  wfCount (count s) ->
  resolvableAccount a = true ->
  exists s',
    processAccount E addr a s = Ok s'
    /\ count s' = addNodes (accountNodes a) (count s)
    /\ (Forall okEvent (trace s) -> Forall okEvent (trace s')).
Proof.
  intros Hwf Hres. unfold resolvableAccount, subRoots in Hres. simpl in Hres.
  repeat (apply andb_prop in Hres as [?H Hres]).
  unfold processAccount. cbv zeta.
  destruct (countSub_spec (OpenStorageTrie (stateDatabase E)) KStorage
              (Root a) s Hwf (fun r => eq_refl) H) as (s1 & Hs1 & Hc1 & Ht1).
  rewrite Hs1. cbn [bind].
  destruct (countSub_spec (OpenTX1Trie (stateDatabase E)) KTX1
              (TX1Root a) s1 (wfCount_eq _ _ _ Hc1) (fun r => eq_refl) H0)
    as (s2 & Hs2 & Hc2 & Ht2).
  rewrite Hs2. cbn [bind].
  destruct (countSub_spec (OpenTX3Trie (stateDatabase E)) KTX3
              (TX3Root a) s2 (wfCount_eq _ _ _ Hc2) (fun r => eq_refl) H1)
    as (s3 & Hs3 & Hc3 & Ht3).
  rewrite Hs3. cbn [bind].
  destruct (countSub_spec (OpenProxiedTrie (stateDatabase E)) KProxied
              (ProxiedRoot a) s3 (wfCount_eq _ _ _ Hc3) (fun r => eq_refl) H2)
    as (s4 & Hs4 & Hc4 & Ht4).
  rewrite Hs4. cbn [bind].
  destruct (countSub_spec (OpenRewardTrie (stateDatabase E)) KReward
              (RewardRoot a) s4 (wfCount_eq _ _ _ Hc4) (fun r => eq_refl) H3)
    as (s5 & Hs5 & Hc5 & Ht5).
  exists s5. split; [exact Hs5 |].
  split; [| intros Hok; apply Ht5, Ht4, Ht3, Ht2, Ht1, Hok].
  rewrite Hc5, Hc4, Hc3, Hc2, Hc1. unfold accountNodes, subRoots.
  cbn [map concat]. rewrite !addNodes_app.
  now rewrite (addNodes_nil (addNodes _ _)) by apply wfCount_addNodes.
Qed.

(** The walk of the account trie. *)
Lemma countItems_census t its : forall s,
  wfCount (count s) ->
  resolvable t its = true ->
  exists s',
    countItems E t (Some (processAccount E)) its s = Ok s'
    /\ count s' = addNodes (visited t its) (count s)
    /\ (Forall okEvent (trace s) -> Forall okEvent (trace s')).
Proof.
  induction its as [| [h | k blob] its IH]; intros s Hwf Hres.
  - exists s. simpl. rewrite addNodes_nil by exact Hwf. auto.
  - cbn [countItems]. rewrite countItem_Node. cbn [bind].
    destruct (IH {| count := addNodes [h] (count s);
                    trace := trace s ++ [EvGet h] |})
      as (s' & Hrun & Hc & Ht); [apply wfCount_addNodes | exact Hres |].
    exists s'. split; [exact Hrun |]. split.
    + rewrite Hc. cbn [count]. unfold visited. cbn [map concat visitedAt].
      now rewrite addNodes_app.
    + intros Hok. apply Ht. cbn [trace]. apply Forall_app. split; [exact Hok |].
      constructor; [exact I | constructor].
  - unfold resolvable in Hres, IH. rewrite accounts_Leaf in Hres.
    cbn [countItems countItem]. unfold visited. cbn [map concat visitedAt accountOf].
    destruct (len (GetKey t k) =? 20).
    + cbn [forallb] in Hres. apply andb_prop in Hres as [Ha Hres].
      destruct (processAccount_spec (GetKey t k) (DecodeAccount E blob)
                  (emit (EvDecode blob) s) Hwf Ha) as (s1 & -> & Hc1 & Ht1).
      cbn [bind].
      destruct (IH s1 (wfCount_eq _ _ _ Hc1) Hres) as (s' & Hrun & Hc & Ht).
      exists s'. split; [exact Hrun |]. split.
      * rewrite Hc, Hc1. cbn [emit count]. now rewrite addNodes_app.
      * intros Hok. apply Ht, Ht1. cbn [emit trace]. apply Forall_app.
        split; [exact Hok |]. constructor; [exact I | constructor].
    + cbn [bind]. destruct (IH s Hwf Hres) as (s' & Hrun & Hc & Ht).
      exists s'. auto.
Qed.

(** ** Counting the visited nodes *)

Lemma len_concat_map {A} (f : A -> list Hash) (l : list A) :
  len (concat (map f l)) = sumZ (map (fun x => len (f x)) l).
Proof.
  induction l as [| x l IH]; simpl; [reflexivity |].
  now rewrite len_app, IH.
Qed.

Lemma len_subNodes kr : len (subNodes kr) = subTrieCount kr.
Proof.
  unfold subNodes, subTrieCount.
  destruct (decide (kr.2 <> emptyRoot)), (decide (kr.2 = emptyRoot));
    try contradiction; try reflexivity.
  now destruct (openSub kr.1 kr.2).
Qed.

Lemma len_accountNodes a :
  len (accountNodes a) = sumZ (map subTrieCount (subRoots a)).
Proof.
  unfold accountNodes. rewrite len_concat_map.
  f_equal. apply map_ext. intros kr. apply len_subNodes.
Qed.

Lemma len_visited t its :
  len (visited t its)
  = len (nodesOf its)
    + sumZ (map (fun a => sumZ (map subTrieCount (subRoots a)))
              (omap (accountOf t) its)).
Proof.
  unfold visited.
  induction its as [| [h | k blob] its IH]; cbn [map concat visitedAt].
  - reflexivity.
  - rewrite len_app, IH, nodesOf_Node, accounts_Node, len_app.
    unfold len. simpl. lia.
  - rewrite len_app, IH, nodesOf_Leaf, accounts_Leaf. cbn [accountOf].
    destruct (len (GetKey t k) =? 20).
    + rewrite len_accountNodes. cbn [map]. rewrite sumZ_cons. lia.
    + unfold len at 1. simpl. lia.
Qed.

Lemma expectedNodes_visited t :
  expectedNodes t = len (visited t (NodeIterator t)).
Proof. now rewrite len_visited. Qed.

(** ** The command *)

(** The height the command reads from its first argument. *)
Definition heightOf (args : Args) : Z := fst (Strconv.ParseUint (First args)).

(** A run that finds its block and its state. *)
Lemma countBlockState_found args file0 block t s :
  1 <= len args ->
  ReadBlock E (ReadCanonicalHash E (heightOf args)) (heightOf args) = Some block ->
  OpenTrie (stateDatabase E) (Types.Root block) = Some t ->
  countItems E t (Some (processAccount E)) (NodeIterator t)
    {| count := mkCountSize 0 0 []; trace := [] |} = Ok s ->
  countBlockState E args file0
  = match OpenFileErr E with
    | Some err => mkRun (Returned (Some err)) file0 None (Some s)
    | None =>
        mkRun (Returned None) (Some (dumpLines (Data (count s))))
          (Some (mkSummary (heightOf args) (Types.Size block)
                   (Totalnode (count s)) (Totalnodevaluesize (count s))))
          (Some s)
    end.
Proof.
  intros Hlen Hblock Htrie Hwalk. unfold countBlockState.
  destruct (Z.ltb_spec (len args) 1); [lia |].
  fold (heightOf args). rewrite Hblock. unfold stateNew. rewrite Htrie.
  cbv beta iota zeta. rewrite Htrie. unfold countTrie. now rewrite Hwalk.
Qed.

(** A run whose height has no canonical block. *)
Lemma countBlockState_no_block args file0 :
  1 <= len args ->
  ReadBlock E (ReadCanonicalHash E (heightOf args)) (heightOf args) = None ->
  countBlockState E args file0 = mkRun (Panicked nilDeref) file0 None None.
Proof.
  intros Hlen Hblock. unfold countBlockState.
  destruct (Z.ltb_spec (len args) 1); [lia |].
  fold (heightOf args). now rewrite Hblock.
Qed.

(** A run whose block's state root is absent from the store. *)
Lemma countBlockState_no_state args file0 block :
  1 <= len args ->
  ReadBlock E (ReadCanonicalHash E (heightOf args)) (heightOf args) = Some block ->
  OpenTrie (stateDatabase E) (Types.Root block) = None ->
  countBlockState E args file0 = mkRun (Panicked nilDeref) file0 None None.
Proof.
  intros Hlen Hblock Htrie. unfold countBlockState.
  destruct (Z.ltb_spec (len args) 1); [lia |].
  fold (heightOf args). rewrite Hblock. unfold stateNew. now rewrite Htrie.
Qed.

(** C1.  In every walk of the census an internal node adds the length of
    its stored bytes to [Totalnodevaluesize], one to [Totalnode] and one
    pair (hash in hex, bytes in hex) to the end of [Data]; a leaf adds
    nothing.  So the walk of a sub-trie adds its internal nodes, in order,
    and the walk of the account trie adds the internal nodes it visits
    there and in the sub-tries of its accounts. *)
Theorem countTrie_contributions t s :
  wfCount (count s) ->
  (forall pl h,
      exists s1,
        countItem E t pl (Node h) s = Ok s1
        /\ Totalnodevaluesize (count s1)
           = int_add (Totalnodevaluesize (count s)) (len (stored h))
        /\ Totalnode (count s1) = int_add (Totalnode (count s)) 1
        /\ Data (count s1)
           = Data (count s)
             ++ [mkNodeData (HashString E h) (Bytes2Hex E (stored h))])
  /\ (forall k blob, countItem E t None (Leaf k blob) s = Ok s)
  /\ (forall k blob f,
        countItem E t (Some f) (Leaf k blob) s = Ok s
        \/ exists s0,
             count s0 = count s
             /\ countItem E t (Some f) (Leaf k blob) s
                = f (GetKey t k) (DecodeAccount E blob) s0)
  /\ (exists s',
        countTrie E (Some t) s None = Ok s'
        /\ count s' = addNodes (internalNodes t) (count s))
  /\ (resolvable t (NodeIterator t) = true ->
      exists s',
        countTrie E (Some t) s (Some (processAccount E)) = Ok s'
        /\ count s' = addNodes (visited t (NodeIterator t)) (count s)).
Proof.
  intros Hwf. split; [| split; [| split; [| split]]].
  - intros pl h. eexists. split; [reflexivity |]. simpl. auto.
  - reflexivity.
  - intros k blob f. simpl. destruct (len (GetKey t k) =? 20); [| now left].
    right. exists (emit (EvDecode blob) s). auto.
  - unfold countTrie. rewrite countItems_None by exact Hwf.
    eexists. split; reflexivity.
  - intros Hres. unfold countTrie.
    destruct (countItems_census t (NodeIterator t) s Hwf Hres)
      as (s' & Hrun & Hc & _).
    eauto.
Qed.

(** C2.  When the block and its state are found and every root other than
    [emptyRoot] of every account can be opened, the census ends with
    [Totalnode] the number of internal nodes of the account trie plus, for
    each account and each of its five roots other than [emptyRoot], the
    number of internal nodes of that sub-trie (as an [int]: the number
    itself below [2^63]); no sub-trie is opened at [emptyRoot]. *)
Theorem census_total_nodes args file0 block t :
  1 <= len args ->
  ReadBlock E (ReadCanonicalHash E (heightOf args)) (heightOf args) = Some block ->
  OpenTrie (stateDatabase E) (Types.Root block) = Some t ->
  resolvable t (NodeIterator t) = true ->
  exists s,
    final (countBlockState E args file0) = Some s
    /\ Totalnode (count s) = wrapInt (expectedNodes t)
    /\ (expectedNodes t < 2 ^ 63 -> Totalnode (count s) = expectedNodes t)
    /\ (forall kind root, EvOpen kind root ∈ trace s -> root <> emptyRoot)
    /\ (OpenFileErr E = None ->
        ended (countBlockState E args file0) = Returned None
        /\ printed (countBlockState E args file0)
           = Some (mkSummary (heightOf args) (Types.Size block)
                     (Totalnode (count s)) (Totalnodevaluesize (count s)))).
Proof.
  intros Hlen Hblock Htrie Hres.
  destruct (countItems_census t (NodeIterator t)
              {| count := mkCountSize 0 0 []; trace := [] |}
              wfCount_zero Hres) as (s & Hrun & Hc & Ht).
  exists s.
  rewrite (countBlockState_found args file0 block t s Hlen Hblock Htrie Hrun).
  assert (Hn : Totalnode (count s) = wrapInt (expectedNodes t)).
  { rewrite Hc. unfold addNodes. cbn [Totalnode]. rewrite Z.add_0_l.
    now rewrite expectedNodes_visited. }
  split; [now destruct (OpenFileErr E) |]. split; [exact Hn |]. split.
  { intros Hsmall. rewrite Hn. apply wrapInt_small.
    assert (0 <= expectedNodes t).
    { rewrite expectedNodes_visited. apply len_nonneg. }
    lia. }
  split.
  { intros kind root Hin.
    assert (Hall : Forall okEvent (trace s)) by (apply Ht; constructor).
    rewrite Forall_forall in Hall. exact (Hall _ Hin). }
  intros Hopen. rewrite Hopen. split; reflexivity.
Qed.

(** C8.  A leaf of the account trie whose key is not 20 bytes long leaves
    the accumulator and the trace as they are: its blob is not decoded and
    no sub-trie is opened for it, and the walk goes as if the leaf were not
    there. *)
Theorem countTrie_skips_short_key t f k blob s :
  len (GetKey t k) <> 20 ->
  countItem E t (Some f) (Leaf k blob) s = Ok s
  /\ accountOf t (Leaf k blob) = None
  /\ forall before after s0,
       countItems E t (Some f) (before ++ Leaf k blob :: after) s0
       = countItems E t (Some f) (before ++ after) s0.
Proof.
  intros Hkey. apply Z.eqb_neq in Hkey.
  split; [simpl; now rewrite Hkey |]. split; [simpl; now rewrite Hkey |].
  intros before after s0. rewrite !countItems_app.
  destruct (countItems E t (Some f) before s0) as [s1 | msg]; [| reflexivity].
  cbn [bind countItems countItem]. now rewrite Hkey.
Qed.

End Facts.

Lemma countTrie_contributions_witness :
  wfCount (count Examples.freshCount)
  /\ resolvable Examples.censusEnv Examples.accountTrie
       (NodeIterator Examples.accountTrie) = true
  /\ exists s',
       countTrie Examples.censusEnv (Some Examples.accountTrie)
         Examples.freshCount (Some (processAccount Examples.censusEnv))
       = Ok s'
       /\ Totalnodevaluesize (count s') = 7
       /\ Totalnode (count s') = 4
       /\ List.map key (Data (count s'))
          = List.map hashHex
              [Examples.hashA; Examples.hashB; Examples.hashC; Examples.hashD].
Proof.
  assert (Hres : resolvable Examples.censusEnv Examples.accountTrie
                   (NodeIterator Examples.accountTrie) = true)
    by (vm_compute; reflexivity).
  destruct (countTrie_contributions Examples.censusEnv Examples.accountTrie
              Examples.freshCount wfCount_zero) as (_ & _ & _ & _ & Hcensus).
  destruct (Hcensus Hres) as (s' & Hrun & Hc).
  split; [exact wfCount_zero |]. split; [exact Hres |].
  exists s'. split; [exact Hrun |]. rewrite Hc.
  repeat split; vm_compute; reflexivity.
Defined.

Lemma census_total_nodes_witness :
  1 <= len ["7"%string]
  /\ exists s,
       final (countBlockState Examples.censusEnv ["7"%string] None) = Some s
       /\ Totalnode (count s) = 4.
Proof.
  split; [vm_compute; discriminate |].
  destruct (census_total_nodes Examples.censusEnv ["7"%string] None
              Examples.block7 Examples.accountTrie) as (s & Hfin & _ & Hn & _).
  - vm_compute; discriminate.
  - vm_compute; reflexivity.
  - vm_compute; reflexivity.
  - vm_compute; reflexivity.
  - exists s. split; [exact Hfin |]. rewrite Hn; vm_compute; reflexivity.
Defined.

Lemma countTrie_skips_short_key_witness :
  len (GetKey Examples.accountTrie (List.repeat xb2 32)) <> 20
  /\ countItem Examples.censusEnv Examples.accountTrie
       (Some (processAccount Examples.censusEnv))
       (Leaf (List.repeat xb2 32) Examples.blob2) Examples.freshCount
     = Ok Examples.freshCount.
Proof.
  assert (Hkey : len (GetKey Examples.accountTrie (List.repeat xb2 32)) <> 20)
    by (vm_compute; discriminate).
  split; [exact Hkey |].
  exact (proj1 (countTrie_skips_short_key Examples.censusEnv
                  Examples.accountTrie (processAccount Examples.censusEnv)
                  (List.repeat xb2 32) Examples.blob2 Examples.freshCount Hkey)).
Defined.

(** The census of the example state: the dump file and the summary. *)
Example countBlockState_example :
  countBlockState Examples.censusEnv ["7"%string] None
  = mkRun (Returned None)
      (Some (dumpLines
               [mkNodeData (hashHex Examples.hashA) "010203";
                mkNodeData (hashHex Examples.hashB) "04";
                mkNodeData (hashHex Examples.hashC) "0506";
                mkNodeData (hashHex Examples.hashD) "07"]))
      (Some (mkSummary 7 640 4 7))
      (final (countBlockState Examples.censusEnv ["7"%string] None)).
Proof. vm_compute. reflexivity. Qed.

(** C3, at a height without a canonical block and at a block whose state
    is absent from the store: the run ends in a nil-pointer panic, not in
    an error, with the dump file as it was. *)
Theorem countBlockState_missing_block_panics :
  countBlockState Examples.censusEnv ["8"%string] (Some "old dump"%string)
  = mkRun (Panicked nilDeref) (Some "old dump"%string) None None
  /\ countBlockState Examples.prunedEnv ["7"%string] (Some "old dump"%string)
     = mkRun (Panicked nilDeref) (Some "old dump"%string) None None.
Proof. split; vm_compute; reflexivity. Qed.

End CensusFacts.

(* ===================================================================== *)
(** * More on the service lifecycle: the states a service can be in       *)
(* ===================================================================== *)

Module ServiceStates.

Import Service.

Section States.

Variable Impl : Type.
Variable OnStart : Impl -> Impl * option error.
Variable OnStop : Impl -> Impl.
Variable OnReset : Impl -> option (Impl * option error).

Implicit Types bs : BaseService Impl.

(** The three states the two flags and the channel are ever in together. *)
Definition idle bs : Prop :=
  started bs = 0 /\ stopped bs = 0 /\ Quit bs = ChanOpen.

Definition running bs : Prop :=
  started bs = 1 /\ stopped bs = 0 /\ Quit bs = ChanOpen.

Definition halted bs : Prop :=
  started bs = 0 /\ stopped bs = 1 /\ Quit bs = ChanClosed.

Definition state3 bs : Prop := idle bs \/ running bs \/ halted bs.

Lemma state3_wf bs : state3 bs -> wf bs.
Proof. unfold state3, idle, running, halted, wf. intuition auto. Qed.

Lemma state3_Start bs : state3 bs -> state3 (fst (Start OnStart bs)).
Proof.
  intros H. destruct (Z.eq_dec (started bs) 1) as [H1 | H1].
  - now rewrite (ServiceFacts.Start_started _ OnStart bs H1).
  - assert (H0 : started bs = 0).
    { destruct H as [H | [H | H]]; destruct H as (? & ? & ?); congruence. }
    assert (Hp : (if stopped bs =? 1 then 0 else stopped bs) = 0).
    { destruct H as [H | [H | H]]; destruct H as (? & Hp & ?); now rewrite Hp. }
    destruct (OnStart (impl bs)) as [i [e |]] eqn:Hon.
    + rewrite (ServiceFacts.Start_idle_err _ OnStart bs i e H0 Hon), Hp.
      left. repeat split.
    + rewrite (ServiceFacts.Start_idle_ok _ OnStart bs i H0 Hon), Hp.
      right; left. repeat split.
Qed.

(** What [Stop] does from each of the two values of [stopped]. *)
Lemma Stop_live bs :
  wf bs -> stopped bs = 0 ->
  Stop OnStop bs
  = (mkBS 0 1 ChanClosed (OnStop (impl bs)) (calls bs ++ [HookOnStop]), true).
Proof.
  intros [Hs _] Hp. destruct bs as [st sp q im cl]. simpl in *. subst sp.
  destruct Hs as [Hs | Hs]; subst st; reflexivity.
Qed.

Lemma Stop_stopped bs : stopped bs = 1 -> Stop OnStop bs = (bs, false).
Proof.
  intros Hp. unfold Stop, CompareAndSwapUint32. rewrite Hp. simpl.
  now rewrite <- Hp, ServiceFacts.set_stopped_id.
Qed.

Lemma state3_Stop bs : state3 bs -> state3 (fst (Stop OnStop bs)).
Proof.
  intros H. pose proof (state3_wf bs H) as Hwf.
  destruct (Z.eq_dec (stopped bs) 1) as [H1 | H1].
  - now rewrite (Stop_stopped bs H1).
  - assert (H0 : stopped bs = 0) by (destruct Hwf as [_ [? | ?]]; congruence).
    rewrite (Stop_live bs Hwf H0). right; right. repeat split.
Qed.

(** What [Reset] does to a stopped service. *)
Lemma Reset_stopped bs :
  wf bs -> stopped bs = 1 ->
  Reset OnReset bs
  = match OnReset (impl bs) with
    | Some (i, err) =>
        Some (mkBS 0 0 ChanOpen i (calls bs ++ [HookOnReset]), (true, err))
    | None => None
    end.
Proof.
  intros [Hs _] Hp. destruct bs as [st sp q im cl]. simpl in *. subst sp.
  destruct Hs as [Hs | Hs]; subst st; unfold Reset; simpl;
    now destruct (OnReset im) as [[i err] |].
Qed.

Lemma state3_Reset bs bs' r :
  state3 bs -> Reset OnReset bs = Some (bs', r) -> state3 bs'.
Proof.
  intros H HR. pose proof (state3_wf bs H) as Hwf.
  destruct (Z.eq_dec (stopped bs) 1) as [H1 | H1].
  - rewrite (Reset_stopped bs Hwf H1) in HR.
    destruct (OnReset (impl bs)) as [[i err] |]; [| discriminate].
    inversion HR; subst. left. repeat split.
  - assert (H0 : stopped bs = 0) by (destruct Hwf as [_ [? | ?]]; congruence).
    rewrite (ServiceFacts.Reset_not_stopped _ OnReset bs H0) in HR.
    now inversion HR; subst.
Qed.

Lemma state3_run cs : forall bs bs' rs,
  state3 bs -> run OnStart OnStop OnReset cs bs = Some (bs', rs) -> state3 bs'.
Proof.
  induction cs as [| c cs IH]; intros bs bs' rs Hst H; cbn [run] in H.
  - now inversion H; subst.
  - destruct (exec OnStart OnStop OnReset c bs) as [[bs1 r] |] eqn:Hc;
      [| discriminate].
    destruct (run OnStart OnStop OnReset cs bs1) as [[bs2 rs2] |] eqn:Hr;
      [| discriminate].
    inversion H; subst. apply (IH bs1 bs' rs2); [| exact Hr].
    destruct c; cbn [exec] in Hc.
    + pose proof (state3_Start bs Hst) as Hw.
      destruct (Start OnStart bs) as [b [ok e]]. now inversion Hc; subst.
    + pose proof (state3_Stop bs Hst) as Hw.
      destruct (Stop OnStop bs) as [b ok]. now inversion Hc; subst.
    + destruct (Reset OnReset bs) as [[b [ok e]] |] eqn:HR; [| discriminate].
      inversion Hc; subst. exact (state3_Reset bs bs1 _ Hst HR).
    + now inversion Hc; subst.
Qed.

(** X1.  Whatever calls a client makes on a new service, the service is in
    one of three states: idle (neither flag set, channel open), running
    ([started] set, channel open) or halted ([stopped] set, channel
    closed).  So the two flags are never set together, [Quit] is closed
    exactly while [stopped] is set, and [IsRunning()] is true exactly
    while [started] is set. *)
Theorem reachable_states (i : Impl) cs bs rs :
  run OnStart OnStop OnReset cs (NewBaseService i) = Some (bs, rs) ->
  state3 bs
  /\ ~ (started bs = 1 /\ stopped bs = 1)
  /\ (Quit bs = ChanClosed <-> stopped bs = 1)
  /\ (IsRunning bs = true <-> started bs = 1).
Proof.
  intros Hrun.
  assert (Hst : state3 bs).
  { apply (state3_run cs (NewBaseService i) bs rs); [| exact Hrun].
    left. repeat split. }
  split; [exact Hst |].
  unfold IsRunning.
  destruct Hst as [H | [H | H]]; destruct H as (Hs & Hp & Hq);
    rewrite Hs, Hp, Hq; simpl; repeat split; intros; try lia;
    try discriminate; try reflexivity; intuition (try lia; try discriminate).
Qed.

(** X2.  In any of the three states a service can be in, [Stop] leaves a
    halted service, which is not running, and is idempotent: a second
    [Stop] returns false and changes nothing.  [Stop] returns true exactly
    when the service was not stopped before; [OnStop] is invoked once in
    that case, on a channel that is still open, and not at all
    otherwise. *)
Theorem Stop_idempotent bs :
  state3 bs ->
  let r := Stop OnStop bs in
  halted (fst r)
  /\ IsRunning (fst r) = false
  /\ Stop OnStop (fst r) = (fst r, false)
  /\ (snd r = true <-> stopped bs = 0)
  /\ (snd r = true -> Quit bs = ChanOpen)
  /\ calls (fst r) = calls bs ++ (if snd r then [HookOnStop] else []).
Proof.
  intros Hst r. subst r. pose proof (state3_wf bs Hst) as Hwf.
  destruct (Z.eq_dec (stopped bs) 1) as [H1 | H1].
  - rewrite (Stop_stopped bs H1). cbn [fst snd].
    split.
    { destruct Hst as [H | [H | H]]; destruct H as (Hs & Hp & Hq);
        try congruence. repeat split; assumption. }
    split; [unfold IsRunning; rewrite H1; apply andb_false_r |].
    split; [apply (Stop_stopped bs H1) |].
    split; [split; [discriminate | lia] |].
    split; [discriminate | now rewrite app_nil_r].
  - assert (H0 : stopped bs = 0) by (destruct Hwf as [_ [? | ?]]; congruence).
    rewrite (Stop_live bs Hwf H0). cbn [fst snd].
    split; [repeat split |].
    split; [reflexivity |]. split; [now apply Stop_stopped |].
    split; [split; auto |]. split; [| reflexivity].
    intros _. destruct Hst as [H | [H | H]]; destruct H as (Hs & Hp & Hq);
      congruence.
Qed.

(** X3.  A stopped service can be started again without [Reset]: from any
    of the three states, [Stop] followed by [Start] with a successful
    [OnStart] gives a running service with a fresh open channel. *)
Theorem Start_after_Stop bs i :
  state3 bs ->
  OnStart (impl (fst (Stop OnStop bs))) = (i, None) ->
  exists bs',
    Start OnStart (fst (Stop OnStop bs)) = (bs', (true, None))
    /\ running bs'
    /\ IsRunning bs' = true
    /\ impl bs' = i.
Proof.
  intros Hst Hon.
  assert (Hh : halted (fst (Stop OnStop bs))).
  { pose proof (state3_wf bs Hst) as Hwf.
    destruct (Z.eq_dec (stopped bs) 1) as [H1 | H1].
    - rewrite (Stop_stopped bs H1).
      destruct Hst as [H | [H | H]]; destruct H as (Hs & Hp & Hq);
        try congruence. repeat split; assumption.
    - assert (H0 : stopped bs = 0) by (destruct Hwf as [_ [? | ?]]; congruence).
      rewrite (Stop_live bs Hwf H0). repeat split. }
  destruct Hh as (Hs & Hp & Hq).
  rewrite (ServiceFacts.Start_idle_ok _ OnStart _ i Hs Hon), Hp.
  eexists. split; [reflexivity |]. repeat split.
Qed.

(** X4.  [Reset] does something only on a stopped service: otherwise it
    returns [(false, nil)], leaves the service as it is and does not call
    [OnReset].  On a stopped service it clears both flags and opens a new
    channel before calling [OnReset], and returns true together with
    whatever error [OnReset] returned; if [OnReset] panics (as the one of
    [BaseService] does), so does [Reset]. *)
Theorem Reset_only_when_stopped bs :
  wf bs ->
  (stopped bs = 0 -> Reset OnReset bs = Some (bs, (false, None)))
  /\ (stopped bs = 1 ->
      (OnReset (impl bs) = None -> Reset OnReset bs = None)
      /\ forall i err,
           OnReset (impl bs) = Some (i, err) ->
           exists bs',
             Reset OnReset bs = Some (bs', (true, err))
             /\ idle bs'
             /\ IsRunning bs' = false
             /\ impl bs' = i
             /\ calls bs' = calls bs ++ [HookOnReset]).
Proof.
  intros Hwf. split.
  - apply ServiceFacts.Reset_not_stopped.
  - intros Hp. rewrite (Reset_stopped bs Hwf Hp). split.
    + now intros ->.
    + intros i err ->. eexists. split; [reflexivity |]. repeat split.
Qed.

End States.

Lemma reachable_states_witness :
  exists bs rs,
    run Examples.flakyOnStart (fun n => n) Examples.noReset
      [CallStart; CallStart; CallStop; CallStop; CallStart]
      (NewBaseService 0%nat) = Some (bs, rs)
    /\ running nat bs
    /\ rs = [RetStart false (Some "not ready"%string); RetStart true None;
             RetStop true; RetStop false; RetStart true None].
Proof.
  eexists. eexists. split; [vm_compute; reflexivity |].
  split; [| reflexivity].
  destruct (reachable_states nat Examples.flakyOnStart (fun n => n)
              Examples.noReset 0%nat
              [CallStart; CallStart; CallStop; CallStop; CallStart]
              _ _ eq_refl) as (Hst & _ & _ & Hrun).
  destruct Hst as [H | [H | H]]; [| exact H |];
    destruct H as (Hs & _); vm_compute in Hs; discriminate.
Defined.

Lemma Stop_idempotent_witness :
  state3 nat (NewBaseService 5%nat)
  /\ Stop (fun n => n) (fst (Stop (fun n => n) (NewBaseService 5%nat)))
     = (fst (Stop (fun n => n) (NewBaseService 5%nat)), false).
Proof.
  assert (Hst : state3 nat (NewBaseService 5%nat)) by (left; repeat split).
  split; [exact Hst |].
  destruct (Stop_idempotent nat (fun n => n) (NewBaseService 5%nat) Hst)
    as (_ & _ & Hagain & _).
  exact Hagain.
Defined.

Lemma Start_after_Stop_witness :
  state3 nat (NewBaseService 3%nat)
  /\ exists bs',
       Start Examples.flakyOnStart
         (fst (Stop (fun n => n) (NewBaseService 3%nat)))
       = (bs', (true, None))
       /\ IsRunning bs' = true.
Proof.
  assert (Hst : state3 nat (NewBaseService 3%nat)) by (left; repeat split).
  split; [exact Hst |].
  destruct (Start_after_Stop nat Examples.flakyOnStart (fun n => n)
              (NewBaseService 3%nat) 4%nat Hst eq_refl)
    as (bs' & HS & _ & Hrun & _).
  exists bs'. split; [exact HS | exact Hrun].
Defined.

Lemma Reset_only_when_stopped_witness :
  wf (NewBaseService 0%nat)
  /\ Reset Examples.noReset (NewBaseService 0%nat)
     = Some (NewBaseService 0%nat, (false, None))
  /\ Reset Examples.noReset (fst (Stop (fun n => n) (NewBaseService 0%nat)))
     = None.
Proof.
  split; [apply ServiceFacts.wf_NewBaseService |]. split.
  - exact (proj1 (Reset_only_when_stopped nat Examples.noReset
                    (NewBaseService 0%nat)
                    (ServiceFacts.wf_NewBaseService nat 0%nat)) eq_refl).
  - refine (proj1 (proj2 (Reset_only_when_stopped nat Examples.noReset
                            (fst (Stop (fun n => n) (NewBaseService 0%nat)))
                            _) eq_refl) eq_refl).
    unfold wf; simpl; auto.
Defined.

End ServiceStates.

(* ===================================================================== *)
(** * More on the memory observer: what the peaks are                     *)
(* ===================================================================== *)

Module ObserverBounds.

Import MemObserver.

Lemma Peaks_ext p q :
  peakMemAlloc p = peakMemAlloc q -> peakMemSys p = peakMemSys q -> p = q.
Proof. destruct p, q; simpl; intros -> ->; reflexivity. Qed.

Lemma sample_comm p a b : sample (sample p a) b = sample (sample p b) a.
Proof.
  apply Peaks_ext.
  - rewrite !MemObserverFacts.sample_alloc. lia.
  - rewrite !MemObserverFacts.sample_sys. lia.
Qed.

Lemma sample_twice p a : sample (sample p a) a = sample p a.
Proof.
  apply Peaks_ext.
  - rewrite !MemObserverFacts.sample_alloc. lia.
  - rewrite !MemObserverFacts.sample_sys. lia.
Qed.

Lemma observe_cons st samples p :
  observe (st :: samples) p = observe samples (sample p st).
Proof. reflexivity. Qed.

(** X5.  After any number of turns each peak is an upper bound of every
    sample read, and it is the initial value or one of the samples: the
    recorded peak is the maximum seen, nothing larger. *)
Theorem observe_is_maximum samples : forall p,
  (forall st, st ∈ samples ->
     Alloc st <= peakMemAlloc (observe samples p)
     /\ Sys st <= peakMemSys (observe samples p))
  /\ (peakMemAlloc (observe samples p) = peakMemAlloc p
      \/ exists st, st ∈ samples /\ peakMemAlloc (observe samples p) = Alloc st)
  /\ (peakMemSys (observe samples p) = peakMemSys p
      \/ exists st, st ∈ samples /\ peakMemSys (observe samples p) = Sys st).
Proof.
  induction samples as [| s0 samples IH]; intros p.
  - split; [intros st Hin; inversion Hin |]. split; left; reflexivity.
  - rewrite observe_cons.
    destruct (IH (sample p s0)) as (Hub & Ha & Hs).
    pose proof (MemObserverFacts.peaks_le_observe samples (sample p s0))
      as [Hla Hls].
    rewrite MemObserverFacts.sample_alloc in Hla, Ha.
    rewrite MemObserverFacts.sample_sys in Hls, Hs.
    split; [| split].
    + intros st Hin. apply elem_of_cons in Hin as [-> | Hin]; [lia | auto].
    + destruct Ha as [Ha | (st & Hin & Ha)].
      * destruct (Z.max_spec (peakMemAlloc p) (Alloc s0)) as [[_ Hm] | [_ Hm]].
        -- right. exists s0. split; [apply elem_of_cons; auto | congruence].
        -- left. congruence.
      * right. exists st. split; [apply elem_of_cons; auto | exact Ha].
    + destruct Hs as [Hs | (st & Hin & Hs)].
      * destruct (Z.max_spec (peakMemSys p) (Sys s0)) as [[_ Hm] | [_ Hm]].
        -- right. exists s0. split; [apply elem_of_cons; auto | congruence].
        -- left. congruence.
      * right. exists st. split; [apply elem_of_cons; auto | exact Hs].
Qed.

(** X6.  The peaks do not depend on the order in which the samples were
    read, nor on how often a sample was read. *)
Theorem observe_order_irrelevant samples samples' p :
  samples ≡ₚ samples' ->
  observe samples p = observe samples' p
  /\ forall st, observe (st :: st :: samples) p = observe (st :: samples) p.
Proof.
  intros Hperm. split.
  - revert p. induction Hperm as [| x l l' _ IH | x y l | l l' l'' _ IH1 _ IH2];
      intros p.
    + reflexivity.
    + rewrite !observe_cons. apply IH.
    + rewrite !observe_cons. now rewrite sample_comm.
    + now rewrite IH1.
  - intros st. rewrite !observe_cons. now rewrite sample_twice.
Qed.

Lemma observe_order_irrelevant_witness :
  [mkMemStats 10 70; mkMemStats 40 90] ≡ₚ [mkMemStats 40 90; mkMemStats 10 70]
  /\ observe [mkMemStats 10 70; mkMemStats 40 90] init
     = observe [mkMemStats 40 90; mkMemStats 10 70] init.
Proof.
  assert (Hperm : [mkMemStats 10 70; mkMemStats 40 90]
                  ≡ₚ [mkMemStats 40 90; mkMemStats 10 70])
    by apply perm_swap.
  split; [exact Hperm |].
  exact (proj1 (observe_order_irrelevant _ _ init Hperm)).
Defined.

End ObserverBounds.

(* ===================================================================== *)
(** * More on importChain: any number of files                            *)
(* ===================================================================== *)

Module ImportCompose.

Import ImportCmd ImportFacts.

Section Compose.

Variable E : Env.

(** The chain after the command, for any number of file paths. *)
Lemma importChain_chain name fns chain0 :
  name <> EmptyString ->
  chain (importChain E (name :: fns) chain0) = importFiles E fns chain0
  /\ ended (importChain E (name :: fns) chain0) = afterImport E.
Proof.
  intros Hname. destruct (Nat.eq_dec (List.length fns) 1%nat) as [H1 | H1].
  - destruct fns as [| fn [| fn' fns]]; try discriminate.
    now rewrite (importChain_single E name fn chain0 Hname).
  - now rewrite (importChain_many E name fns chain0 Hname H1).
Qed.

(** X7.  For any number of file paths (none, one or several) the chain
    after the command is the one obtained by importing the files in order,
    each on the chain the one before left, the errors logged are those of
    the failing imports in order, and the command ends as the statistics
    do.  The one-file form differs from the others only in that its log
    entry does not name the file. *)
Theorem importChain_any_number name fns chain0 :
  name <> EmptyString ->
  let r := importChain E (name :: fns) chain0 in
  chain r = importFiles E fns chain0
  /\ List.map logErr (logged r) = List.map logErr (fileErrors E fns chain0)
  /\ ended r = afterImport E
  /\ (List.length fns <> 1%nat -> logged r = fileErrors E fns chain0)
  /\ (List.length fns = 1%nat ->
      Forall (fun l => logFile l = None) (logged r)).
Proof.
  intros Hname r. subst r.
  destruct (importChain_chain name fns chain0 Hname) as [Hc He].
  split; [exact Hc |].
  destruct (Nat.eq_dec (List.length fns) 1%nat) as [H1 | H1].
  - destruct fns as [| fn [| fn' fns]]; try discriminate.
    rewrite (importChain_single E name fn chain0 Hname). cbn [logged ended].
    simpl fileErrors.
    destruct (snd (ImportChain E chain0 fn)) as [e |]; simpl;
      repeat split; try reflexivity; try (intros; congruence);
      intros; repeat constructor.
  - rewrite (importChain_many E name fns chain0 Hname H1). cbn [logged ended].
    repeat split; try reflexivity. intros; contradiction.
Qed.

(** X8.  Importing two lists of files in one command leaves the chain that
    importing the first list and then, in a second command, the second
    list leaves. *)
Theorem importChain_compose name fns1 fns2 chain0 :
  name <> EmptyString ->
  chain (importChain E (name :: fns1 ++ fns2) chain0)
  = chain (importChain E (name :: fns2)
             (chain (importChain E (name :: fns1) chain0))).
Proof.
  intros Hname.
  rewrite (proj1 (importChain_chain name (fns1 ++ fns2) chain0 Hname)).
  rewrite (proj1 (importChain_chain name fns2 _ Hname)).
  rewrite (proj1 (importChain_chain name fns1 chain0 Hname)).
  apply importFiles_app.
Qed.

End Compose.

Lemma importChain_any_number_witness :
  "pchain"%string <> EmptyString
  /\ chain (importChain Examples.importEnv ["pchain"; "a.rlp"]%string [])
     = [Examples.block1; Examples.block2]
  /\ logged (importChain Examples.importEnv ["pchain"]%string []) = [].
Proof.
  assert (Hname : "pchain"%string <> EmptyString) by discriminate.
  split; [exact Hname |]. split.
  - rewrite (proj1 (importChain_any_number Examples.importEnv "pchain"
                      ["a.rlp"%string] [] Hname)).
    vm_compute. reflexivity.
  - destruct (importChain_any_number Examples.importEnv "pchain" [] [] Hname)
      as (_ & _ & _ & Hlog & _).
    rewrite Hlog by discriminate. reflexivity.
Defined.

Lemma importChain_compose_witness :
  "pchain"%string <> EmptyString
  /\ chain (importChain Examples.importEnv
              ["pchain"; "b.rlp"; "a.rlp"]%string [])
     = chain (importChain Examples.importEnv ["pchain"; "a.rlp"]%string
                (chain (importChain Examples.importEnv
                          ["pchain"; "b.rlp"]%string []))).
Proof.
  assert (Hname : "pchain"%string <> EmptyString) by discriminate.
  split; [exact Hname |].
  exact (importChain_compose Examples.importEnv "pchain"
           ["b.rlp"%string] ["a.rlp"%string] [] Hname).
Defined.

End ImportCompose.

(* ===================================================================== *)
(** * What the parsers accept                                             *)
(* ===================================================================== *)

Module StrconvFacts.

Import Strconv.

(** The number that decimal digits spell, read after a number [acc];
    [None] when some byte is not a digit. *)
Fixpoint digitsValue (s : string) (acc : Z) : option Z :=
  match s with
  | EmptyString => Some acc
  | String c rest =>
      match digit c with
      | Some d => digitsValue rest (acc * 10 + d)
      | None => None
      end
  end.

(** The number a non-empty string of decimal digits spells. *)
Definition decimalValue (s : string) : option Z :=
  match s with
  | EmptyString => None
  | _ => digitsValue s 0
  end.

(** The integer a numeral spells: an optional sign, then decimal digits. *)
Definition numeral (s : string) : option Z :=
  match s with
  | EmptyString => None
  | String c rest =>
      if Ascii.eqb c "+" then decimalValue rest
      else if Ascii.eqb c "-" then option_map Z.opp (decimalValue rest)
      else decimalValue s
  end.

(** Case analysis on the comparisons of the goal. *)
Ltac split_cmp :=
  first
    [ match goal with |- context [?x <=? ?y] => destruct (Z.leb_spec x y) end
    | match goal with |- context [?x <? ?y] => destruct (Z.ltb_spec x y) end
    | match goal with |- context [?x >=? ?y] => destruct (Z.geb_spec x y) end
    | match goal with |- context [?x >? ?y] => destruct (Z.gtb_spec x y) end ].

Ltac cases_cmp :=
  repeat split_cmp; cbn [andb orb negb]; try lia; try reflexivity.

Lemma digit_range c d : digit c = Some d -> 0 <= d <= 9.
Proof.
  unfold digit. intros H.
  destruct (Z.leb_spec 48 (Z.of_N (N_of_ascii c)));
    destruct (Z.leb_spec (Z.of_N (N_of_ascii c)) 57);
    simpl in H; inversion H; lia.
Qed.

Lemma digitsValue_ge s : forall a v,
  0 <= a -> digitsValue s a = Some v -> a <= v.
Proof.
  induction s as [| c s IH]; intros a v Ha H; simpl in H.
  - inversion H; lia.
  - destruct (digit c) as [d |] eqn:Hd; [| discriminate].
    pose proof (digit_range c d Hd).
    pose proof (IH (a * 10 + d) v ltac:(lia) H). lia.
Qed.

Lemma mod_once x m : 0 < m -> m <= x < 2 * m -> x mod m = x - m.
Proof.
  intros Hm Hx. symmetry. apply (Z.mod_unique x m 1); lia.
Qed.

(** One turn of the loop. *)
Lemma parseDigits_step c rest n d :
  digit c = Some d ->
  parseDigits (String c rest) n
  = if n >=? 1844674407370955162 then (18446744073709551615, Some ErrRange)
    else if ((n * 10 + d) mod 18446744073709551616 <? n * 10)
            || ((n * 10 + d) mod 18446744073709551616 >? 18446744073709551615)
         then (18446744073709551615, Some ErrRange)
         else parseDigits rest ((n * 10 + d) mod 18446744073709551616).
Proof. intros Hd. cbn [parseDigits]. rewrite Hd. reflexivity. Qed.

(** The loop on digits only: the number they spell, or a range error when
    it does not fit 64 bits. *)
Lemma parseDigits_value s : forall n v,
  0 <= n <= 18446744073709551615 ->
  digitsValue s n = Some v ->
  parseDigits s n
  = if v <=? 18446744073709551615 then (v, None)
    else (18446744073709551615, Some ErrRange).
Proof.
  induction s as [| c s IH]; intros n v Hn H; simpl in H.
  - inversion H; subst. cbn [parseDigits].
    destruct (Z.leb_spec v 18446744073709551615); [reflexivity | lia].
  - destruct (digit c) as [d |] eqn:Hd; [| discriminate].
    pose proof (digit_range c d Hd) as Hdr.
    pose proof (digitsValue_ge s (n * 10 + d) v ltac:(lia) H) as Hge.
    rewrite (parseDigits_step c s n d Hd).
    destruct (Z.geb_spec n 1844674407370955162) as [Hcut | Hcut].
    + destruct (Z.leb_spec v 18446744073709551615); [lia | reflexivity].
    + destruct (Z_lt_le_dec (n * 10 + d) 18446744073709551616) as [Hfit | Hover].
      * rewrite Z.mod_small by lia.
        destruct (Z.ltb_spec (n * 10 + d) (n * 10)); [lia |].
        destruct (Z.gtb_spec (n * 10 + d) 18446744073709551615); [lia |].
        simpl. apply IH; [lia | exact H].
      * rewrite mod_once by lia.
        destruct (Z.ltb_spec (n * 10 + d - 18446744073709551616) (n * 10));
          [| lia].
        simpl.
        destruct (Z.leb_spec v 18446744073709551615); [lia | reflexivity].
Qed.

Lemma digitsValue_None s : forall a b,
  digitsValue s a = None -> digitsValue s b = None.
Proof.
  induction s as [| c s IH]; intros a b H; simpl in *; [discriminate |].
  destruct (digit c); [eapply IH; exact H | reflexivity].
Qed.

(** The loop on a string with a byte that is not a digit: an error. *)
Lemma parseDigits_nondigit s : forall n,
  digitsValue s n = None ->
  parseDigits s n = (0, Some ErrSyntax)
  \/ parseDigits s n = (18446744073709551615, Some ErrRange).
Proof.
  induction s as [| c s IH]; intros n H; simpl in H; [discriminate |].
  destruct (digit c) as [d |] eqn:Hd.
  - rewrite (parseDigits_step c s n d Hd).
    destruct (n >=? 1844674407370955162); [now right |].
    destruct (_ || _); [now right |].
    apply IH. exact (digitsValue_None s _ _ H).
  - left. cbn [parseDigits]. now rewrite Hd.
Qed.

(** [ParseUint], case by case. *)
Lemma ParseUint_cases s :
  (decimalValue s = None
   /\ (ParseUint s = (0, Some ErrSyntax)
       \/ ParseUint s = (18446744073709551615, Some ErrRange)))
  \/ (exists u,
        decimalValue s = Some u /\ 0 <= u
        /\ ParseUint s = if u <=? 18446744073709551615 then (u, None)
                         else (18446744073709551615, Some ErrRange)).
Proof.
  destruct s as [| c s]; [left; split; [reflexivity | now left] |].
  unfold decimalValue, ParseUint.
  destruct (digitsValue (String c s) 0) as [u |] eqn:Hv.
  - right. exists u. split; [reflexivity |].
    split; [apply (digitsValue_ge (String c s) 0 u); [lia | exact Hv] |].
    apply parseDigits_value; [lia | exact Hv].
  - left. split; [reflexivity | now apply parseDigits_nondigit].
Qed.

(** [ParseUint] accepts exactly the non-empty strings of decimal digits
    that spell a number below [2^64], and returns that number. *)
Lemma ParseUint_spec s v :
  ParseUint s = (v, None)
  <-> decimalValue s = Some v /\ v <= 18446744073709551615.
Proof.
  destruct (ParseUint_cases s) as [[Hd [H | H]] | (u & Hd & Hu & H)];
    rewrite H, Hd.
  - split; [discriminate | intros [? _]; discriminate].
  - split; [discriminate | intros [? _]; discriminate].
  - destruct (Z.leb_spec u 18446744073709551615).
    + split; [intros Heq; inversion Heq; subst; auto |].
      intros [Heq _]. now inversion Heq.
    + split; [discriminate |]. intros [Heq Hle]. inversion Heq; lia.
Qed.

(** [ParseInt] after the sign, case by case on what [ParseUint] found. *)
Lemma ParseInt_signed (neg : bool) s' :
  (let '(un, err) := ParseUint s' in
   match err with
   | Some ErrSyntax => (0, Some ErrSyntax)
   | _ =>
       let cutoff := 2 ^ 63 in
       if negb neg && (un >=? cutoff) then (cutoff - 1, Some ErrRange)
       else if neg && (un >? cutoff) then (- cutoff, Some ErrRange)
       else (if neg then - un else un, None)
   end)
  = match decimalValue s' with
    | Some u =>
        let v := if neg then - u else u in
        if (- 2 ^ 63 <=? v) && (v <? 2 ^ 63) then (v, None)
        else if neg then (- 2 ^ 63, Some ErrRange)
             else (2 ^ 63 - 1, Some ErrRange)
    | None =>
        match snd (ParseUint s') with
        | Some ErrSyntax => (0, Some ErrSyntax)
        | _ => if neg then (- 2 ^ 63, Some ErrRange)
               else (2 ^ 63 - 1, Some ErrRange)
        end
    end.
Proof.
  change (2 ^ 63) with 9223372036854775808.
  destruct (ParseUint_cases s') as [[Hd [H | H]] | (u & Hd & Hu & H)];
    rewrite H, Hd; cbn [snd].
  - reflexivity.
  - destruct neg; reflexivity.
  - destruct (Z.leb_spec u 18446744073709551615) as [Hle | Hgt];
      destruct neg; cbv zeta; cbn [negb andb]; cases_cmp.
Qed.

(** [ParseInt] accepts exactly the numerals of the integers from [-2^63]
    to [2^63 - 1], and returns the integer. *)
Lemma ParseInt_spec s v :
  ParseInt s = (v, None)
  <-> numeral s = Some v /\ - 2 ^ 63 <= v < 2 ^ 63.
Proof.
  destruct s as [| c rest]; [split; [discriminate | intros [? _]; discriminate] |].
  unfold ParseInt, numeral.
  assert (Hgen : forall neg s',
            (let '(un, err) := ParseUint s' in
             match err with
             | Some ErrSyntax => (0, Some ErrSyntax)
             | _ =>
                 let cutoff := 2 ^ 63 in
                 if negb neg && (un >=? cutoff) then (cutoff - 1, Some ErrRange)
                 else if neg && (un >? cutoff) then (- cutoff, Some ErrRange)
                 else (if neg then - un else un, None)
             end) = (v, None)
            <-> (if neg then option_map Z.opp (decimalValue s')
                 else decimalValue s') = Some v
                /\ - 2 ^ 63 <= v < 2 ^ 63).
  { intros neg s'. rewrite ParseInt_signed.
    destruct (decimalValue s') as [u |].
    - cbv zeta.
      destruct (Z.leb_spec (- 2 ^ 63) (if neg then - u else u));
        destruct (Z.ltb_spec (if neg then - u else u) (2 ^ 63)); cbn [andb];
        destruct neg; cbn [option_map];
        (split; [intros Heq; inversion Heq; subst; auto; try lia
                | intros [Heq Hr]; inversion Heq; subst; try reflexivity; lia]).
    - destruct (snd (ParseUint s')) as [[|] |]; destruct neg; cbn [option_map];
        (split; [discriminate | intros [? _]; discriminate]). }
  destruct (Ascii.eqb c "+"); [apply (Hgen false rest) |].
  destruct (Ascii.eqb c "-"); [apply (Hgen true rest) |].
  apply (Hgen false (String c rest)).
Qed.

(** The value that comes with an error of [ParseUint]. *)
Lemma ParseUint_error_value s e :
  snd (ParseUint s) = Some e ->
  fst (ParseUint s) = match e with
                      | ErrSyntax => 0
                      | ErrRange => 18446744073709551615
                      end.
Proof.
  destruct (ParseUint_cases s) as [[Hd [H | H]] | (u & Hd & Hu & H)];
    rewrite H; cbn [fst snd].
  - now intros [= <-].
  - now intros [= <-].
  - destruct (u <=? 18446744073709551615); cbn [fst snd];
      [discriminate | now intros [= <-]].
Qed.

End StrconvFacts.

(* ===================================================================== *)
(** * More on exportChain: which bounds are accepted                      *)
(* ===================================================================== *)

Module ExportBounds.

Import ExportCmd StrconvFacts.

(** X10.  When both bounds are numerals (an optional sign and decimal
    digits) of integers from 0 to [2^63 - 1], the ranged export is the one
    performed, with exactly those two numbers; the command ends as that
    export does, and arguments after the fourth are not read. *)
Theorem exportChain_range_passed E name fp a b rest w first last :
  name <> EmptyString ->
  numeral a = Some first -> numeral b = Some last ->
  0 <= first < 2 ^ 63 -> 0 <= last < 2 ^ 63 ->
  world (exportChain E (name :: fp :: a :: b :: rest) w)
  = fst (ExportAppendChain E fp first last w)
  /\ ended (exportChain E (name :: fp :: a :: b :: rest) w)
     = match snd (ExportAppendChain E fp first last w) with
       | Some e => Fatal (String.append "Export error: " e)
       | None => Returned None
       end
  /\ exportChain E (name :: fp :: a :: b :: rest) w
     = exportChain E [name; fp; a; b] w.
Proof.
  intros Hname Ha Hb Hfirst Hlast.
  assert (HPa : Strconv.ParseInt a = (first, None))
    by (apply ParseInt_spec; split; [exact Ha | lia]).
  assert (HPb : Strconv.ParseInt b = (last, None))
    by (apply ParseInt_spec; split; [exact Hb | lia]).
  assert (Hrun : forall more,
            exportChain E (name :: fp :: a :: b :: more) w
            = match snd (ExportAppendChain E fp first last w) with
              | Some e => mkRun (Fatal (String.append "Export error: " e))
                            (fst (ExportAppendChain E fp first last w))
              | None => mkRun (Returned None)
                          (fst (ExportAppendChain E fp first last w))
              end).
  { intros more. unfold exportChain.
    assert (H1 : (len (name :: fp :: a :: b :: more) <? 1) = false)
      by (apply Z.ltb_ge; unfold len; simpl; lia).
    assert (H4 : (len (name :: fp :: a :: b :: more) <? 4) = false)
      by (apply Z.ltb_ge; unfold len; simpl; lia).
    rewrite H1, H4.
    destruct (String.eqb_spec (First (name :: fp :: a :: b :: more)) "");
      [contradiction |].
    unfold Get; cbn [nth]. rewrite HPa, HPb. cbn [notNil orb].
    destruct (Z.ltb_spec first 0); [lia |].
    destruct (Z.ltb_spec last 0); [lia |]. cbn [orb].
    unfold uint64. change (2 ^ 64) with 18446744073709551616.
    change (2 ^ 63) with 9223372036854775808 in *.
    rewrite !Z.mod_small by lia. reflexivity. }
  rewrite !Hrun.
  destruct (snd (ExportAppendChain E fp first last w)); auto.
Qed.

(** X11.  A ranged export is refused unless both bounds are numerals of
    integers from 0 to [2^63 - 1]: a bound that is not a numeral, is
    negative, or is above 9223372036854775807 ends the command in a fatal
    error with nothing opened or written. *)
Theorem exportChain_refuses_other_bounds E args w :
  4 <= len args ->
  (forall v, numeral (Get args 2) = Some v -> v < 0 \/ 2 ^ 63 <= v)
  \/ (forall v, numeral (Get args 3) = Some v -> v < 0 \/ 2 ^ 63 <= v) ->
  exists msg, exportChain E args w = mkRun (Fatal msg) w.
Proof.
  intros H4 Hbad. apply ExportFacts.exportChain_bad_bounds; [exact H4 |].
  unfold ExportFacts.boundsOk.
  assert (Hone : forall s,
            (forall v, numeral s = Some v -> v < 0 \/ 2 ^ 63 <= v) ->
            notNil (snd (Strconv.ParseInt s)) = true
            \/ (fst (Strconv.ParseInt s) <? 0) = true).
  { intros s Hs. destruct (Strconv.ParseInt s) as [v [e |]] eqn:HP;
      [now left | right].
    apply ParseInt_spec in HP as [Hn Hr]. cbn [fst].
    destruct (Hs v Hn); [now apply Z.ltb_lt | lia]. }
  destruct Hbad as [Hbad | Hbad]; destruct (Hone _ Hbad) as [H | H]; rewrite H;
    cbn [orb negb andb]; rewrite ?orb_true_r, ?andb_false_r; reflexivity.
Qed.

Lemma exportChain_range_passed_witness :
  "pchain"%string <> EmptyString
  /\ fs (world (exportChain Examples.exportEnv
                  ["pchain"; "out.rlp"; "+1"; "2"; "extra"]%string
                  Examples.emptyDisk))
       !! "out.rlp"%string
     = Some [Examples.block1; Examples.block2].
Proof.
  assert (Hname : "pchain"%string <> EmptyString) by discriminate.
  split; [exact Hname |].
  destruct (exportChain_range_passed Examples.exportEnv "pchain" "out.rlp"
              "+1" "2" ["extra"%string] Examples.emptyDisk 1 2 Hname
              eq_refl eq_refl) as (Hw & _ & _).
  - change (2 ^ 63) with 9223372036854775808. lia.
  - change (2 ^ 63) with 9223372036854775808. lia.
  - rewrite Hw. vm_compute. reflexivity.
Defined.

Lemma exportChain_refuses_other_bounds_witness :
  4 <= len ["pchain"; "out.rlp"; "9223372036854775808"; "5"]%string
  /\ exists msg,
       exportChain Examples.exportEnv
         ["pchain"; "out.rlp"; "9223372036854775808"; "5"]%string
         Examples.emptyDisk
       = mkRun (Fatal msg) Examples.emptyDisk.
Proof.
  assert (H4 : 4 <= len ["pchain"; "out.rlp"; "9223372036854775808"; "5"]%string)
    by (vm_compute; discriminate).
  split; [exact H4 |].
  apply (exportChain_refuses_other_bounds Examples.exportEnv _
           Examples.emptyDisk H4).
  left. intros v Hv. vm_compute in Hv. inversion Hv; subst. right.
  change (2 ^ 63) with 9223372036854775808. lia.
Defined.

End ExportBounds.

(* ===================================================================== *)
(** * More on the census: how a run ends                                  *)
(* ===================================================================== *)

Module CensusRuns.

Import Common Census CensusFacts.

Section Runs.

Variable E : Env.

(** A sub-trie that cannot be opened. *)
Lemma countSub_unresolved open k root s :
  (forall r, open zeroHash r = openSub E k r) ->
  bool_decide (root = emptyRoot) || bool_decide (is_Some (openSub E k root))
  = false ->
  countSub E open k root s = Panic nilDeref.
Proof.
  intros Hopen Hres. apply orb_false_iff in Hres as [Hroot Hsome].
  apply bool_decide_eq_false in Hroot. apply bool_decide_eq_false in Hsome.
  unfold countSub. destruct (decide (root <> emptyRoot)); [| contradiction].
  rewrite Hopen. destruct (openSub E k root) as [t |]; [| reflexivity].
  exfalso. apply Hsome. eauto.
Qed.

(** One of the five blocks of the closure, in front of the rest of it:
    when its sub-trie cannot be opened the closure panics, and otherwise
    the rest goes on from an accumulator that is still well formed. *)
Lemma countSub_then open k root s (rest : St -> result St) :
  wfCount (count s) ->
  (forall r, open zeroHash r = openSub E k r) ->
  (bool_decide (root = emptyRoot) || bool_decide (is_Some (openSub E k root))
   = false
   /\ bind (countSub E open k root s) rest = Panic nilDeref)
  \/ (bool_decide (root = emptyRoot) || bool_decide (is_Some (openSub E k root))
      = true
      /\ exists s1,
           wfCount (count s1)
           /\ bind (countSub E open k root s) rest = rest s1).
Proof.
  intros Hwf Hopen.
  destruct (bool_decide (root = emptyRoot)
            || bool_decide (is_Some (openSub E k root))) eqn:Hres.
  - right. split; [reflexivity |].
    destruct (countSub_spec E open k root s Hwf Hopen Hres)
      as (s1 & Hs1 & Hc1 & _).
    exists s1. split; [exact (wfCount_eq E _ _ _ Hc1) | now rewrite Hs1].
  - left. split; [reflexivity |].
    now rewrite (countSub_unresolved open k root s Hopen Hres).
Qed.

(** The closure on an account one of whose sub-tries cannot be opened. *)
Lemma processAccount_panic addr a s :
  wfCount (count s) ->
  resolvableAccount E a = false ->
  processAccount E addr a s = Panic nilDeref.
Proof.
  intros Hwf Hres. unfold resolvableAccount, subRoots in Hres.
  cbn [forallb fst snd] in Hres. unfold processAccount. cbv zeta.
  destruct (countSub_then (OpenStorageTrie (stateDatabase E)) KStorage
              (Root a) s
              (fun s => bind (countSub E (OpenTX1Trie (stateDatabase E)) KTX1
                                (TX1Root a) s)
                 (fun s => bind (countSub E (OpenTX3Trie (stateDatabase E))
                                   KTX3 (TX3Root a) s)
                    (fun s => bind (countSub E
                                      (OpenProxiedTrie (stateDatabase E))
                                      KProxied (ProxiedRoot a) s)
                       (fun s => countSub E (OpenRewardTrie (stateDatabase E))
                                   KReward (RewardRoot a) s))))
              Hwf (fun r => eq_refl)) as [[_ HP] | (Hb1 & s1 & Hwf1 & Hgo)];
    [exact HP |].
  rewrite Hgo. rewrite Hb1 in Hres.
  destruct (countSub_then (OpenTX1Trie (stateDatabase E)) KTX1 (TX1Root a) s1
              (fun s => bind (countSub E (OpenTX3Trie (stateDatabase E))
                                KTX3 (TX3Root a) s)
                 (fun s => bind (countSub E (OpenProxiedTrie (stateDatabase E))
                                   KProxied (ProxiedRoot a) s)
                    (fun s => countSub E (OpenRewardTrie (stateDatabase E))
                                KReward (RewardRoot a) s)))
              Hwf1 (fun r => eq_refl)) as [[_ HP] | (Hb2 & s2 & Hwf2 & Hgo2)];
    [exact HP |].
  rewrite Hgo2. rewrite Hb2 in Hres.
  destruct (countSub_then (OpenTX3Trie (stateDatabase E)) KTX3 (TX3Root a) s2
              (fun s => bind (countSub E (OpenProxiedTrie (stateDatabase E))
                                KProxied (ProxiedRoot a) s)
                 (fun s => countSub E (OpenRewardTrie (stateDatabase E))
                             KReward (RewardRoot a) s))
              Hwf2 (fun r => eq_refl)) as [[_ HP] | (Hb3 & s3 & Hwf3 & Hgo3)];
    [exact HP |].
  rewrite Hgo3. rewrite Hb3 in Hres.
  destruct (countSub_then (OpenProxiedTrie (stateDatabase E)) KProxied
              (ProxiedRoot a) s3
              (fun s => countSub E (OpenRewardTrie (stateDatabase E))
                          KReward (RewardRoot a) s)
              Hwf3 (fun r => eq_refl)) as [[_ HP] | (Hb4 & s4 & Hwf4 & Hgo4)];
    [exact HP |].
  rewrite Hgo4. rewrite Hb4 in Hres.
  cbn [andb] in Hres. rewrite andb_true_r in Hres.
  exact (countSub_unresolved _ KReward (RewardRoot a) s4 (fun r => eq_refl) Hres).
Qed.

(** The walk of the account trie when some account has a sub-trie that
    cannot be opened. *)
Lemma countItems_panic t its : forall s,
  wfCount (count s) ->
  resolvable E t its = false ->
  countItems E t (Some (processAccount E)) its s = Panic nilDeref.
Proof.
  induction its as [| [h | k blob] its IH]; intros s Hwf Hres.
  - discriminate.
  - cbn [countItems]. rewrite countItem_Node. cbn [bind].
    apply IH; [apply wfCount_addNodes | exact Hres].
  - unfold resolvable in Hres, IH. rewrite accounts_Leaf in Hres.
    cbn [countItems countItem].
    destruct (len (GetKey t k) =? 20).
    + cbn [forallb] in Hres.
      destruct (resolvableAccount E (DecodeAccount E blob)) eqn:Ha.
      * destruct (processAccount_spec E (GetKey t k) (DecodeAccount E blob)
                    (emit (EvDecode blob) s) Hwf Ha) as (s1 & Hs1 & Hc1 & _).
        rewrite Hs1. cbn [bind].
        apply IH; [exact (wfCount_eq E _ _ _ Hc1) | exact Hres].
      * now rewrite (processAccount_panic (GetKey t k) (DecodeAccount E blob)
                       (emit (EvDecode blob) s) Hwf Ha).
    + cbn [bind]. now apply IH.
Qed.

(** A run that finds its block and its state, and panics in the walk. *)
Lemma countBlockState_walk_panics args file0 block t msg :
  1 <= len args ->
  ReadBlock E (ReadCanonicalHash E (heightOf args)) (heightOf args) = Some block ->
  OpenTrie (stateDatabase E) (Types.Root block) = Some t ->
  countItems E t (Some (processAccount E)) (NodeIterator t)
    {| count := mkCountSize 0 0 []; trace := [] |} = Panic msg ->
  countBlockState E args file0 = mkRun (Panicked msg) file0 None None.
Proof.
  intros Hlen Hblock Htrie Hwalk. unfold countBlockState.
  destruct (Z.ltb_spec (len args) 1); [lia |].
  fold (heightOf args). rewrite Hblock. unfold stateNew. rewrite Htrie.
  cbv beta iota zeta. rewrite Htrie. unfold countTrie. now rewrite Hwalk.
Qed.

(** The entry of the dump for a node. *)
Definition entry (h : Hash) : nodeData :=
  mkNodeData (HashString E h) (Bytes2Hex E (stored E h)).

(** X12.  A census that finds its block and state and can open every
    sub-trie writes to the dump file one line for each internal node it
    visited, in the order of the visit (a node of the account trie where
    the iterator meets it, the nodes of the sub-trees of an account where
    it meets the account's leaf), replacing what the file held; the node
    count it reports is the number of those lines. *)
Theorem census_dump_file args file0 block t :
  1 <= len args ->
  ReadBlock E (ReadCanonicalHash E (heightOf args)) (heightOf args) = Some block ->
  OpenTrie (stateDatabase E) (Types.Root block) = Some t ->
  resolvable E t (NodeIterator t) = true ->
  OpenFileErr E = None ->
  dumpFile (countBlockState E args file0)
  = Some (dumpLines (map entry (visited E t (NodeIterator t))))
  /\ exists s,
       final (countBlockState E args file0) = Some s
       /\ Data (count s) = map entry (visited E t (NodeIterator t))
       /\ Totalnode (count s) = wrapInt (len (Data (count s)))
       /\ Totalnodevaluesize (count s)
          = wrapInt (sumZ (map (fun h => len (stored E h))
                             (visited E t (NodeIterator t)))).
Proof.
  intros Hlen Hblock Htrie Hres Hopen.
  destruct (countItems_census E t (NodeIterator t)
              {| count := mkCountSize 0 0 []; trace := [] |}
              wfCount_zero Hres) as (s & Hrun & Hc & _).
  rewrite (countBlockState_found E args file0 block t s Hlen Hblock Htrie Hrun).
  rewrite Hopen. cbn [dumpFile final]. rewrite Hc. cbn [addNodes count Data].
  split; [reflexivity |]. exists s. split; [reflexivity |].
  rewrite Hc. unfold addNodes. cbn [count Data Totalnode Totalnodevaluesize app].
  rewrite !Z.add_0_l. repeat split. unfold len. now rewrite length_map.
Qed.

(** X13.  A census that finds its block and state but cannot open a
    sub-trie whose root is not [emptyRoot] panics: nothing is written to
    the dump file and nothing is reported, whatever was counted before. *)
Theorem census_panics_on_missing_subtrie args file0 block t :
  1 <= len args ->
  ReadBlock E (ReadCanonicalHash E (heightOf args)) (heightOf args) = Some block ->
  OpenTrie (stateDatabase E) (Types.Root block) = Some t ->
  resolvable E t (NodeIterator t) = false ->
  countBlockState E args file0 = mkRun (Panicked nilDeref) file0 None None.
Proof.
  intros Hlen Hblock Htrie Hres.
  apply (countBlockState_walk_panics args file0 block t nilDeref Hlen Hblock Htrie).
  apply countItems_panic; [apply wfCount_zero | exact Hres].
Qed.

(** X14.  When the dump file cannot be opened, the census returns that
    error after the whole walk: the file is as it was and no summary is
    printed. *)
Theorem census_open_file_error args file0 block t err :
  1 <= len args ->
  ReadBlock E (ReadCanonicalHash E (heightOf args)) (heightOf args) = Some block ->
  OpenTrie (stateDatabase E) (Types.Root block) = Some t ->
  resolvable E t (NodeIterator t) = true ->
  OpenFileErr E = Some err ->
  ended (countBlockState E args file0) = Returned (Some err)
  /\ dumpFile (countBlockState E args file0) = file0
  /\ printed (countBlockState E args file0) = None.
Proof.
  intros Hlen Hblock Htrie Hres Hopen.
  destruct (countItems_census E t (NodeIterator t)
              {| count := mkCountSize 0 0 []; trace := [] |}
              wfCount_zero Hres) as (s & Hrun & _).
  rewrite (countBlockState_found E args file0 block t s Hlen Hblock Htrie Hrun).
  rewrite Hopen. auto.
Qed.

(** The command reads its first argument through the height only. *)
Lemma countBlockState_height h h' rest file0 :
  fst (Strconv.ParseUint h) = fst (Strconv.ParseUint h') ->
  countBlockState E (h :: rest) file0 = countBlockState E (h' :: rest) file0.
Proof.
  intros Hh. unfold countBlockState, First, Get, len. cbn [nth length].
  now rewrite Hh.
Qed.

(** X15.  The error of [ParseUint] on the height argument is dropped
    and the run goes on: it is exactly the census at height 0 when
    [ParseUint] reports a syntax error, and exactly the census at height
    [2^64 - 1] when it reports a range error.  Every argument that is not
    the decimal spelling of a number up to [2^64 - 1] gets one of the two
    errors, and digits that spell a larger number get the range error. *)
Theorem census_height_error_dropped h rest file0 :
  (snd (Strconv.ParseUint h) = Some Strconv.ErrSyntax ->
   countBlockState E (h :: rest) file0
   = countBlockState E ("0"%string :: rest) file0)
  /\ (snd (Strconv.ParseUint h) = Some Strconv.ErrRange ->
      countBlockState E (h :: rest) file0
      = countBlockState E ("18446744073709551615"%string :: rest) file0)
  /\ ((forall v, StrconvFacts.decimalValue h = Some v ->
                 18446744073709551615 < v) ->
      snd (Strconv.ParseUint h) = Some Strconv.ErrSyntax
      \/ snd (Strconv.ParseUint h) = Some Strconv.ErrRange)
  /\ (forall v, StrconvFacts.decimalValue h = Some v ->
                18446744073709551615 < v ->
      countBlockState E (h :: rest) file0
      = countBlockState E ("18446744073709551615"%string :: rest) file0).
Proof.
  assert (Hsyn : snd (Strconv.ParseUint h) = Some Strconv.ErrSyntax ->
                 countBlockState E (h :: rest) file0
                 = countBlockState E ("0"%string :: rest) file0).
  { intros He. apply countBlockState_height.
    now rewrite (StrconvFacts.ParseUint_error_value h _ He). }
  assert (Hrng : snd (Strconv.ParseUint h) = Some Strconv.ErrRange ->
                 countBlockState E (h :: rest) file0
                 = countBlockState E ("18446744073709551615"%string :: rest)
                     file0).
  { intros He. apply countBlockState_height.
    now rewrite (StrconvFacts.ParseUint_error_value h _ He). }
  split; [exact Hsyn |]. split; [exact Hrng |].
  destruct (StrconvFacts.ParseUint_cases h)
    as [[Hd [H | H]] | (u & Hd & Hu & H)].
  - split; [intros _; left; now rewrite H |].
    intros v Hv. congruence.
  - split; [intros _; right; now rewrite H |].
    intros v Hv. congruence.
  - split.
    + intros Hbig. pose proof (Hbig u Hd) as Hgt. right. rewrite H.
      destruct (Z.leb_spec u 18446744073709551615); [lia | reflexivity].
    + intros v Hv Hgt. apply Hrng. rewrite H.
      assert (v = u) by congruence. subst v.
      destruct (Z.leb_spec u 18446744073709551615); [lia | reflexivity].
Qed.

End Runs.

Lemma census_dump_file_witness :
  1 <= len ["7"%string]
  /\ dumpFile (countBlockState Examples.censusEnv ["7"%string]
                 (Some "old dump"%string))
     = Some (dumpLines
               [mkNodeData (hashHex Examples.hashA) "010203";
                mkNodeData (hashHex Examples.hashB) "04";
                mkNodeData (hashHex Examples.hashC) "0506";
                mkNodeData (hashHex Examples.hashD) "07"]).
Proof.
  assert (Hlen : 1 <= len ["7"%string]) by (vm_compute; discriminate).
  split; [exact Hlen |].
  rewrite (proj1 (census_dump_file Examples.censusEnv ["7"%string]
                    (Some "old dump"%string) Examples.block7
                    Examples.accountTrie Hlen eq_refl eq_refl eq_refl eq_refl)).
  vm_compute. reflexivity.
Defined.

Lemma census_panics_on_missing_subtrie_witness :
  1 <= len ["7"%string]
  /\ countBlockState Examples.brokenEnv ["7"%string] (Some "old dump"%string)
     = mkRun (Panicked nilDeref) (Some "old dump"%string) None None.
Proof.
  assert (Hlen : 1 <= len ["7"%string]) by (vm_compute; discriminate).
  split; [exact Hlen |].
  exact (census_panics_on_missing_subtrie Examples.brokenEnv ["7"%string]
           (Some "old dump"%string) Examples.block7 Examples.accountTrie
           Hlen eq_refl eq_refl eq_refl).
Defined.

Lemma census_open_file_error_witness :
  1 <= len ["7"%string]
  /\ ended (countBlockState Examples.readOnlyEnv ["7"%string] None)
     = Returned (Some "permission denied"%string)
  /\ dumpFile (countBlockState Examples.readOnlyEnv ["7"%string] None) = None.
Proof.
  assert (Hlen : 1 <= len ["7"%string]) by (vm_compute; discriminate).
  split; [exact Hlen |].
  destruct (census_open_file_error Examples.readOnlyEnv ["7"%string] None
              Examples.block7 Examples.accountTrie "permission denied"%string
              Hlen eq_refl eq_refl eq_refl eq_refl) as (He & Hf & _).
  split; [exact He | exact Hf].
Defined.

Lemma census_height_error_dropped_witness :
  snd (Strconv.ParseUint "seven") = Some Strconv.ErrSyntax
  /\ countBlockState Examples.censusEnv ["seven"%string] None
     = countBlockState Examples.censusEnv ["0"%string] None
  /\ snd (Strconv.ParseUint "99999999999999999999x") = Some Strconv.ErrRange
  /\ countBlockState Examples.censusEnv ["99999999999999999999x"%string] None
     = countBlockState Examples.censusEnv ["18446744073709551615"%string] None.
Proof.
  split; [reflexivity |]. split.
  - exact (proj1 (census_height_error_dropped Examples.censusEnv "seven"
                    [] None) eq_refl).
  - split; [reflexivity |].
    exact (proj1 (proj2 (census_height_error_dropped Examples.censusEnv
                           "99999999999999999999x" [] None)) eq_refl).
Defined.

End CensusRuns.

(* ===================================================================== *)
(** * Properties of dump                                                  *)
(* ===================================================================== *)

Module DumpFacts.

Import DumpCmd StrconvFacts.

Section Facts.

Variable E : Env.

(** X16.  An argument is looked up by number exactly when it is a numeral
    of an integer from [-2^63] to [2^63 - 1]; a negative number [v] is
    looked up as block [2^64 + v].  Every other argument, a numeral out of
    that range included, is looked up by the hash its hexadecimal digits
    spell. *)
Theorem blockOf_by_number_or_hash arg :
  (forall v, numeral arg = Some v -> - 2 ^ 63 <= v < 2 ^ 63 ->
     hashish arg = false
     /\ blockOf E arg = GetBlockByNumber E (v mod 2 ^ 64)
     /\ (v < 0 -> blockOf E arg = GetBlockByNumber E (2 ^ 64 + v)))
  /\ ((forall v, numeral arg = Some v -> v < - 2 ^ 63 \/ 2 ^ 63 <= v) ->
      hashish arg = true
      /\ blockOf E arg = GetBlockByHash E (Common.HexToHash arg)).
Proof.
  split.
  - intros v Hn Hr.
    assert (HP : Strconv.ParseInt arg = (v, None))
      by (apply ParseInt_spec; auto).
    assert (Hh : hashish arg = false) by (unfold hashish, Atoi; now rewrite HP).
    assert (Hb : blockOf E arg = GetBlockByNumber E (v mod 2 ^ 64)).
    { unfold blockOf. rewrite Hh. unfold Atoi, uint64. now rewrite HP. }
    split; [exact Hh |]. split; [exact Hb |].
    intros Hneg. rewrite Hb. f_equal.
    change (2 ^ 64) with 18446744073709551616.
    change (2 ^ 63) with 9223372036854775808 in Hr.
    symmetry. apply (Z.mod_unique v 18446744073709551616 (-1)); lia.
  - intros Hout.
    assert (Hh : hashish arg = true).
    { unfold hashish, Atoi.
      destruct (Strconv.ParseInt arg) as [v [e |]] eqn:HP; [reflexivity |].
      apply ParseInt_spec in HP as [Hn Hr]. destruct (Hout v Hn); lia. }
    split; [exact Hh |]. unfold blockOf. now rewrite Hh.
Qed.

(** What the command prints for an argument it can dump. *)
Definition dumped (arg : string) : option string :=
  match blockOf E arg with
  | Some block =>
      match StateAt E (Types.Root block) with
      | Dump json => Some json
      | NoState _ => None
      end
  | None => None
  end.

Lemma dumpArgs_prefix pre jsons :
  Forall2 (fun a j => dumped a = Some j) pre jsons ->
  forall rest out,
    dumpArgs E (pre ++ rest) out = dumpArgs E rest (out ++ jsons).
Proof.
  induction 1 as [| a j pre jsons Ha _ IH]; intros rest out.
  - now rewrite app_nil_r.
  - cbn [app dumpArgs]. unfold dumped in Ha.
    destruct (blockOf E a) as [block |]; [| discriminate].
    destruct (StateAt E (Types.Root block)) as [err | json]; [discriminate |].
    inversion Ha; subst. rewrite IH, <- app_assoc. reflexivity.
Qed.

(** X17.  The command dumps its arguments in order and stops at the first
    one it cannot dump: the states of the arguments before it are printed
    and nothing of the ones after it, the command ends in a fatal error
    (after printing an empty object when the block is missing) and the
    database is not closed.  When every argument can be dumped it prints
    all the states, closes the database and returns nil. *)
Theorem dump_stops_at_first_failure pre jsons :
  Forall2 (fun a j => dumped a = Some j) pre jsons ->
  dump E pre = mkRun (Returned None) jsons true
  /\ forall arg post,
       dumped arg = None ->
       closed (dump E (pre ++ arg :: post)) = false
       /\ (blockOf E arg = None ->
           dump E (pre ++ arg :: post)
           = mkRun (Fatal "block not found") (jsons ++ ["{}"%string]) false)
       /\ (forall block err,
             blockOf E arg = Some block ->
             StateAt E (Types.Root block) = NoState err ->
             dump E (pre ++ arg :: post)
             = mkRun (Fatal (String.append "could not create new state: " err))
                 jsons false).
Proof.
  intros Hpre. split.
  - unfold dump. rewrite <- (app_nil_r pre), (dumpArgs_prefix pre jsons Hpre).
    reflexivity.
  - intros arg post Harg. unfold dump.
    rewrite (dumpArgs_prefix pre jsons Hpre). cbn [dumpArgs app].
    unfold dumped in Harg.
    destruct (blockOf E arg) as [block |] eqn:Hb.
    + destruct (StateAt E (Types.Root block)) as [err | json] eqn:Hs;
        [| discriminate].
      split; [reflexivity |]. split; [discriminate |].
      intros block' err' Hb' Hs'. inversion Hb'; subst block'.
      rewrite Hs in Hs'. now inversion Hs'; subst.
    + split; [reflexivity |]. split; [reflexivity |].
      intros block err Hb'. discriminate.
Qed.

End Facts.

Lemma blockOf_by_number_or_hash_witness :
  blockOf Examples.dumpEnv "2" = Some Examples.block2
  /\ hashish "9223372036854775808" = true.
Proof.
  destruct (blockOf_by_number_or_hash Examples.dumpEnv "2") as [Hnum _].
  destruct (blockOf_by_number_or_hash Examples.dumpEnv "9223372036854775808")
    as [_ Hhash].
  split.
  - destruct (Hnum 2 eq_refl) as (_ & Hb & _).
    + change (2 ^ 63) with 9223372036854775808. lia.
    + rewrite Hb. vm_compute. reflexivity.
  - apply Hhash. intros v Hv. vm_compute in Hv. inversion Hv; subst. right.
    change (2 ^ 63) with 9223372036854775808. lia.
Defined.

Lemma dump_stops_at_first_failure_witness :
  Forall2 (fun a j => dumped Examples.dumpEnv a = Some j)
    ["0"; "2"]%string
    ["{ root: 56e8, accounts: {} }"; "{ root: 56e8, accounts: {} }"]%string
  /\ dump Examples.dumpEnv ["0"; "2"; "5"; "1"]%string
     = mkRun (Fatal "block not found")
         ["{ root: 56e8, accounts: {} }"; "{ root: 56e8, accounts: {} }";
          "{}"]%string false.
Proof.
  assert (Hpre : Forall2 (fun a j => dumped Examples.dumpEnv a = Some j)
                   ["0"; "2"]%string
                   ["{ root: 56e8, accounts: {} }";
                    "{ root: 56e8, accounts: {} }"]%string)
    by (repeat constructor).
  split; [exact Hpre |].
  destruct (dump_stops_at_first_failure Examples.dumpEnv _ _ Hpre) as [_ Hfail].
  destruct (Hfail "5"%string ["1"%string] eq_refl) as (_ & Hmissing & _).
  exact (Hmissing eq_refl).
Defined.

End DumpFacts.

(* ===================================================================== *)
(** * Properties of initGenesis                                           *)
(* ===================================================================== *)

Module GenesisFacts.

Import GenesisCmd.

(** X18.  The command sets the genesis block up in the database
    [chaindata] and then in [lightchaindata], with the same decoded
    genesis.  It returns nil exactly when both were set up; the light
    database is opened only after the full one was set up; and without a
    path, or with a file that cannot be read or decoded, no database is
    opened at all. *)
Theorem initGenesis_order (E : Env) (args : Args) :
  let r := initGenesis E args in
  (ended r = Returned None <->
   exists g h1 h2,
     events r = [EvOpenDatabase "chaindata"; EvSetup "chaindata" g;
                 EvWrote "chaindata" h1;
                 EvOpenDatabase "lightchaindata"; EvSetup "lightchaindata" g;
                 EvWrote "lightchaindata" h2])
  /\ (EvOpenDatabase "lightchaindata" ∈ events r ->
      exists g h1 rest,
        SetupGenesisBlock E "chaindata" g = Good h1
        /\ events r = [EvOpenDatabase "chaindata"; EvSetup "chaindata" g;
                       EvWrote "chaindata" h1] ++ rest)
  /\ (First args = EmptyString
      \/ (exists err, Open E (First args) = Bad err)
      \/ (exists file err,
            Open E (First args) = Good file /\ Decode E file = Bad err) ->
      events r = [] /\ exists msg, ended r = Fatal msg).
Proof.
  unfold initGenesis.
  destruct (First args) as [| c path] eqn:Hpath.
  { cbn. split; [split; [discriminate | intros (g & h1 & h2 & H); discriminate] |].
    split; [intros H; inversion H | eauto]. }
  assert (Hlen : (Z.of_nat (String.length (String c path)) =? 0) = false)
    by (apply Z.eqb_neq; simpl; lia).
  rewrite Hlen.
  destruct (Open E (String c path)) as [file | err] eqn:HO.
  2:{ cbn. split; [split; [discriminate | intros (g & h1 & h2 & H); discriminate] |].
      split; [intros H; inversion H | eauto]. }
  destruct (Decode E file) as [g | err] eqn:HD.
  2:{ cbn. split; [split; [discriminate | intros (g & h1 & h2 & H); discriminate] |].
      split; [intros H; inversion H | eauto]. }
  assert (Hbad : String c path = EmptyString
                 \/ (exists err, Good file = Bad err)
                 \/ (exists file' err,
                       Good file = Good file' /\ Decode E file' = Bad err)
                 -> False).
  { intros [H | [(err & H) | (file' & err & H1 & H2)]];
      [discriminate | discriminate | inversion H1; subst; congruence]. }
  cbn [setupAll app].
  destruct (OpenDatabase E "chaindata") as [e1 |].
  { cbn. split; [split; [discriminate | intros (g' & h1 & h2 & H); discriminate] |].
    split; [| intros H; destruct (Hbad H)].
    intros H. apply list_elem_of_singleton in H. discriminate. }
  destruct (SetupGenesisBlock E "chaindata" g) as [h1 | e1] eqn:HS1.
  2:{ cbn. split; [split; [discriminate | intros (g' & h1 & h2 & H); discriminate] |].
      split; [| intros H; destruct (Hbad H)].
      intros H. repeat (apply elem_of_cons in H as [H | H]; [discriminate |]).
      inversion H. }
  destruct (OpenDatabase E "lightchaindata") as [e2 |].
  { cbn. split; [split; [discriminate | intros (g' & h1' & h2 & H); discriminate] |].
    split; [| intros H; destruct (Hbad H)].
    intros _. exists g, h1, [EvOpenDatabase "lightchaindata"]. auto. }
  destruct (SetupGenesisBlock E "lightchaindata" g) as [h2 | e2].
  - cbn. split; [split; [intros _; exists g, h1, h2; reflexivity | reflexivity] |].
    split; [| intros H; destruct (Hbad H)].
    intros _. eexists g, h1, _. split; [exact HS1 | reflexivity].
  - cbn. split; [split; [discriminate | intros (g' & h1' & h2 & H); discriminate] |].
    split; [| intros H; destruct (Hbad H)].
    intros _. eexists g, h1, _. split; [exact HS1 | reflexivity].
Qed.

(** The light database cannot be opened: the full one has its genesis, the
    command ends in a fatal error. *)
Example initGenesis_light_fails :
  initGenesis Examples.genesisEnv ["genesis.json"%string]
  = mkRun (Fatal "Failed to open database: resource temporarily unavailable")
      [EvOpenDatabase "chaindata"; EvSetup "chaindata" [x7b; x7d];
       EvWrote "chaindata" Examples.hashA; EvOpenDatabase "lightchaindata"].
Proof. reflexivity. Qed.

End GenesisFacts.
